(** * Storage envelope (package [wrap]) and PATCH handler (package [handlers])

    A shallow embedding of package [wrap] (the [Wrapper] envelope, its
    codecs, compression, options, [Unwrap], [UnwrapInto] and the list
    forms) and of [backend/apid/handlers/patch.go] ([PatchResource] and
    [validatePatch]), followed by the properties the specification states
    about them.

    Go values are modelled as the code sees them: [int32] enums are [Z],
    [[]byte] is a list of bytes, [map[string]string] is [option (gmap string
    string)] with [None] for the nil map, a pointer that may be nil is an
    [option].  Functions of other packages (encoding/json, protobuf, snappy,
    the type registry, time, net/url, the store) are fields of a record of
    collaborators, so every definition here is a function of them. *)

From Stdlib Require Import ZArith Ascii String List.
From stdpp Require Import gmap strings list fin_maps.

Local Open Scope Z_scope.

Abbreviation bytes := (list Byte.byte).

(* ===================================================================== *)
(** * Package wrap *)
(* ===================================================================== *)

Module Wrap.

(** ** Data model *)

(** [Encoding] and [Compression] are [int32] in the source. *)
Definition Encoding := Z.
Definition Encoding_json : Encoding := 0.
Definition Encoding_protobuf : Encoding := 1.

Definition Encoding_name : gmap Z string :=
  <[0 := "json"%string]> (<[1 := "protobuf"%string]> ∅).

Definition Encoding_value : gmap string Z :=
  <["json"%string := 0]> (<["protobuf"%string := 1]> ∅).

(** [Encoding.String]: a lookup in a Go map gives the zero value (the empty
    string) for a missing key. *)
Definition Encoding_String (x : Encoding) : string :=
  default ""%string (Encoding_name !! x).

Definition Compression := Z.
Definition Compression_none : Compression := 0.
Definition Compression_snappy : Compression := 1.

Definition Compression_name : gmap Z string :=
  <[0 := "none"%string]> (<[1 := "snappy"%string]> ∅).

Definition Compression_value : gmap string Z :=
  <["none"%string := 0]> (<["snappy"%string := 1]> ∅).

Definition Compression_String (x : Compression) : string :=
  default ""%string (Compression_name !! x).

(** [corev2.TypeMeta]. *)
Record corev2_TypeMeta := {
  Type_ : string;
  APIVersion : string
}.

(** [corev2.ObjectMeta]; a nil map is [None]. *)
Record corev2_ObjectMeta := {
  Name : string;
  Namespace : string;
  Labels : option (gmap string string);
  Annotations : option (gmap string string);
  CreatedBy : string
}.

(** [new(corev2.ObjectMeta)]. *)
Definition new_ObjectMeta : corev2_ObjectMeta :=
  {| Name := ""; Namespace := ""; Labels := None; Annotations := None;
     CreatedBy := "" |}.

Definition set_Labels (m : corev2_ObjectMeta) (l : option (gmap string string)) :=
  {| Name := Name m; Namespace := Namespace m; Labels := l;
     Annotations := Annotations m; CreatedBy := CreatedBy m |}.

Definition set_Annotations (m : corev2_ObjectMeta) (a : option (gmap string string)) :=
  {| Name := Name m; Namespace := Namespace m; Labels := Labels m;
     Annotations := a; CreatedBy := CreatedBy m |}.

(** [time.Time], as the seconds and nanoseconds since the zero time. *)
Record Time := { sec : Z; nsec : Z }.

Definition zero_Time : Time := {| sec := 0; nsec := 0 |}.

(** [Time.IsZero]. *)
Definition IsZero (t : Time) : bool := (sec t =? 0) && (nsec t =? 0).

(** The dynamic type of a value held in an [interface{}]: what
    [reflect.Type] reports and which interfaces its method set satisfies. *)
Record GoType := {
  typ_Name : string;           (* reflect.Type.Name of the pointed-to type *)
  typ_PkgPath : string;        (* reflect.Type.PkgPath *)
  isProtoMessage : bool;       (* v.(proto.Message) succeeds *)
  hasValidate : bool;          (* v.(validatable) succeeds *)
  hasGetTypeMeta : bool;       (* v.(tmGetter) succeeds *)
  isV3Resource : bool          (* v.(corev3.Resource) succeeds *)
}.

(** A value behind a non-nil pointer: its dynamic type, the metadata pointer
    that [GetMetadata] returns and [SetMetadata] sets, and the rest of its
    fields. *)
Record Resource := {
  rtype : GoType;
  Metadata : option corev2_ObjectMeta;
  Spec : string
}.

Definition SetMetadata (r : Resource) (m : option corev2_ObjectMeta) : Resource :=
  {| rtype := rtype r; Metadata := m; Spec := Spec r |}.

(** An [interface{}] argument: a pointer to a value, or a
    [*corev3.V2ResourceProxy] around one. *)
Inductive iface :=
| Ptr (r : Resource)
| V2ResourceProxy (inner : Resource).

Inductive error :=
| ErrValidateMethodMissing
| ErrProtobufEncodingRequested (T : GoType)
| ErrProtobufDecodingRequested (T : GoType)
| ErrInvalidEncoding (name : string)
| ErrInvalidCompression (name : string)
| ErrUnwrapping (T : GoType) (cause : error)
| ErrOnlyV3Resources
| ErrWrapListItem (i : nat) (cause : error)
| ErrNotValid_ExpectedPointer
| ErrNotValid_ExpectedSlice
| ExternalError (msg : string).

(** The outcome of a call that returns [(value, error)]. *)
Inductive result (A : Type) :=
| Ok (a : A)
| Err (e : error)
| Panic.
Arguments Ok {A} a.
Arguments Err {A} e.
Arguments Panic {A}.

Definition bind {A B} (x : result A) (f : A -> result B) : result B :=
  match x with
  | Ok a => f a
  | Err e => Err e
  | Panic => Panic
  end.

Notation "x <- c ;; k" := (bind c (fun x => k))
  (at level 100, c at next level, right associativity).

(** The outcome of a call that returns only [error] and works on its
    argument in place. *)
Inductive status :=
| Done
| Failed (e : error)
| Panicked.

(** [Wrapper]. The projections carry the names of the getters. *)
Record Wrapper := {
  GetTypeMeta : option corev2_TypeMeta;
  GetEncoding : Encoding;
  GetCompression : Compression;
  GetValue : bytes;
  CreatedAt : Time;
  UpdatedAt : Time;
  DeletedAt : Time;
  ETag : string
}.

Definition set_Encoding (w : Wrapper) (e : Encoding) : Wrapper :=
  {| GetTypeMeta := GetTypeMeta w; GetEncoding := e;
     GetCompression := GetCompression w; GetValue := GetValue w;
     CreatedAt := CreatedAt w; UpdatedAt := UpdatedAt w;
     DeletedAt := DeletedAt w; ETag := ETag w |}.

Definition set_Compression (w : Wrapper) (c : Compression) : Wrapper :=
  {| GetTypeMeta := GetTypeMeta w; GetEncoding := GetEncoding w;
     GetCompression := c; GetValue := GetValue w;
     CreatedAt := CreatedAt w; UpdatedAt := UpdatedAt w;
     DeletedAt := DeletedAt w; ETag := ETag w |}.

Definition set_Value (w : Wrapper) (v : bytes) : Wrapper :=
  {| GetTypeMeta := GetTypeMeta w; GetEncoding := GetEncoding w;
     GetCompression := GetCompression w; GetValue := v;
     CreatedAt := CreatedAt w; UpdatedAt := UpdatedAt w;
     DeletedAt := DeletedAt w; ETag := ETag w |}.

(** [Wrapper{TypeMeta: &tm}]: every other field has its zero value. *)
Definition new_Wrapper (tm : corev2_TypeMeta) : Wrapper :=
  {| GetTypeMeta := Some tm; GetEncoding := 0; GetCompression := 0;
     GetValue := []; CreatedAt := zero_Time; UpdatedAt := zero_Time;
     DeletedAt := zero_Time; ETag := "" |}.

(** ** Collaborators *)

(** What the package calls and does not define: methods of the resource
    types, the codecs, snappy, the type registry, [time.Time.MarshalText]
    and the reserved keys of package [store]. *)
Record Externals := {
  Validate : Resource -> option error;
  tmGetter_GetTypeMeta : Resource -> corev2_TypeMeta;
  ApiVersion : string -> string;
  json_Marshal : Resource -> result bytes;
  json_Unmarshal : bytes -> Resource -> Resource * option error;
  proto_Marshal : Resource -> result bytes;
  proto_Unmarshal : bytes -> Resource -> Resource * option error;
  snappy_Encode : bytes -> bytes;
  snappy_Decode : bytes -> result bytes;
  Resolve : string -> string -> result Resource;
  MarshalText : Time -> string * option error;
  SensuCreatedAtKey : string;
  SensuUpdatedAtKey : string;
  SensuDeletedAtKey : string;
  SensuETagKey : string
}.

Section WithExternals.

Context (E : Externals).

(** ** Codecs and compression *)

Definition Encode (e : Encoding) (v : Resource) : result bytes :=
  if e =? Encoding_json then json_Marshal E v
  else if e =? Encoding_protobuf then
    if isProtoMessage (rtype v) then proto_Marshal E v
    else Err (ErrProtobufEncodingRequested (rtype v))
  else Err (ErrInvalidEncoding (Encoding_String e)).

(** [Decode] fills [v] in place: the target after the call comes back with
    the error. *)
Definition Decode (e : Encoding) (m : bytes) (v : Resource) : Resource * option error :=
  if e =? Encoding_json then json_Unmarshal E m v
  else if e =? Encoding_protobuf then
    if isProtoMessage (rtype v) then proto_Unmarshal E m v
    else (v, Some (ErrProtobufDecodingRequested (rtype v)))
  else (v, Some (ErrInvalidEncoding (Encoding_String e))).

Definition Compress (c : Compression) (m : bytes) : bytes :=
  if c =? Compression_none then m
  else if c =? Compression_snappy then snappy_Encode E m
  else m.

Definition Decompress (c : Compression) (m : bytes) : result bytes :=
  if c =? Compression_none then Ok m
  else if c =? Compression_snappy then snappy_Decode E m
  else Err (ErrInvalidCompression (Compression_String c)).

(** ** Options *)

(** [Option]: a function that may change the wrapper under construction and
    returns an error. *)
Definition Option := Wrapper -> Resource -> Wrapper * option error.

Definition EncodeProtobuf : Option := fun w r =>
  if negb (isProtoMessage (rtype r)) then
    (w, Some (ErrProtobufEncodingRequested (rtype r)))
  else (set_Encoding w Encoding_protobuf, None).

Definition EncodeJSON : Option := fun w r =>
  (set_Encoding w Encoding_json, None).

Definition EncodeDefault : Option := fun w r =>
  let encoding := Encoding_json in
  let encoding := if isProtoMessage (rtype r) then Encoding_protobuf else encoding in
  (set_Encoding w encoding, None).

Definition CompressNone : Option := fun w r =>
  (set_Compression w Compression_none, None).

Definition CompressSnappy : Option := fun w r =>
  (set_Compression w Compression_snappy, None).

Definition CompressDefault : Option := CompressSnappy.

(** The loop [for _, opt := range opts] of [wrapWithoutValidation]. *)
Fixpoint apply_opts (opts : list Option) (w : Wrapper) (r : Resource) : result Wrapper :=
  match opts with
  | [] => Ok w
  | opt :: rest =>
      match opt w r with
      | (_, Some err) => Err err
      | (w', None) => apply_opts rest w' r
      end
  end.

(** ** Wrapping *)

(** The value an [interface{}] argument stands for once the proxy has been
    looked through ([r = proxy.Resource]). *)
Definition underlying (v : iface) : Resource :=
  match v with
  | V2ResourceProxy inner => inner
  | Ptr r => r
  end.

Definition wrapWithoutValidation (r : iface) (opts : list Option) : result Wrapper :=
  let r := underlying r in
  let tm :=
    if hasGetTypeMeta (rtype r) then tmGetter_GetTypeMeta E r
    else {| Type_ := typ_Name (rtype r);
            APIVersion := ApiVersion E (typ_PkgPath (rtype r)) |} in
  let w := new_Wrapper tm in
  w <- apply_opts ([EncodeDefault; CompressDefault] ++ opts) w r ;;
  message <- Encode (GetEncoding w) r ;;
  Ok (set_Value w (Compress (GetCompression w) message)).

(** [r.(validatable)]: the proxy embeds a [corev2.Resource], whose method
    set has [Validate], and passes the call on to it. *)
Definition validatable (r : iface) : bool :=
  match r with
  | Ptr r => hasValidate (rtype r)
  | V2ResourceProxy _ => true
  end.

Definition wrap (r : iface) (opts : list Option) : result Wrapper :=
  if validatable r then
    match Validate E (underlying r) with
    | Some err => Err err
    | None => wrapWithoutValidation r opts
    end
  else Err ErrValidateMethodMissing.

Definition Resource_ (r : iface) (opts : list Option) := wrap r opts.
Definition ResourceWithoutValidation (r : iface) (opts : list Option) :=
  wrapWithoutValidation r opts.
Definition V2Resource (r : iface) (opts : list Option) := wrap r opts.
Definition V2ResourceWithoutValidation (r : iface) (opts : list Option) :=
  wrapWithoutValidation r opts.

(** ** Unwrapping *)

Definition UnwrapRaw (w : Wrapper) : result Resource :=
  match GetTypeMeta w with
  | None => Panic                              (* w.TypeMeta.APIVersion on nil *)
  | Some tm =>
      resource <- Resolve E (APIVersion tm) (Type_ tm) ;;
      match Decompress (GetCompression w) (GetValue w) with
      | Ok message =>
          match Decode (GetEncoding w) message resource with
          | (_, Some err) => Err err
          | (resource, None) => Ok resource
          end
      | Err err => Err (ErrUnwrapping (rtype resource) err)
      | Panic => Panic
      end
  end.

(** [text, _ := t.MarshalText(); string(text)]: the error is dropped. *)
Definition timeText (t : Time) : string := fst (MarshalText E t).

Definition Unwrap (w : Wrapper) : result Resource :=
  r <- UnwrapRaw w ;;
  if negb (isV3Resource (rtype r)) then Err ErrOnlyV3Resources
  else
    let meta := match Metadata r with
                | None => new_ObjectMeta
                | Some meta => meta
                end in
    let labels := match Labels meta with None => ∅ | Some l => l end in
    let annotations := match Annotations meta with None => ∅ | Some a => a end in
    let labels := <[SensuCreatedAtKey E := timeText (CreatedAt w)]> labels in
    let labels := <[SensuUpdatedAtKey E := timeText (UpdatedAt w)]> labels in
    let annotations := <[SensuETagKey E := ETag w]> annotations in
    let labels :=
      if negb (IsZero (DeletedAt w)) then
        <[SensuDeletedAtKey E := timeText (DeletedAt w)]> labels
      else labels in
    Ok (SetMetadata r
          (Some (set_Annotations (set_Labels meta (Some labels)) (Some annotations)))).

(** [UnwrapInto] fills [p] in place; the pair is [p] after the call and what
    the call returned. *)
Definition UnwrapInto (w : Wrapper) (p : iface) : iface * status :=
  let back (t : Resource) : iface :=
    match p with
    | V2ResourceProxy _ => V2ResourceProxy t
    | Ptr _ => Ptr t
    end in
  let p := underlying p in
  match Decompress (GetCompression w) (GetValue w) with
  | Err err => (back p, Failed (ErrUnwrapping (rtype p) err))
  | Panic => (back p, Panicked)
  | Ok message =>
      match Decode (GetEncoding w) message p with
      | (p, Some err) => (back p, Failed err)
      | (p, None) =>
          if isV3Resource (rtype p) then
            match Metadata p with
            | None => (back p, Panicked)       (* meta.Labels on a nil meta *)
            | Some meta =>
                let labels := match Labels meta with None => ∅ | Some l => l end in
                let annotations :=
                  match Annotations meta with None => ∅ | Some a => a end in
                let labels := <[SensuCreatedAtKey E := timeText (CreatedAt w)]> labels in
                let labels := <[SensuUpdatedAtKey E := timeText (UpdatedAt w)]> labels in
                let labels :=
                  if negb (IsZero (DeletedAt w)) then
                    <[SensuDeletedAtKey E := timeText (DeletedAt w)]> labels
                  else labels in
                (back (SetMetadata p
                         (Some (set_Annotations (set_Labels meta (Some labels))
                                                (Some annotations)))),
                 Done)
            end
          else (back p, Done)
      end
  end.

(** ** Lists of wrappers *)

Definition List := list Wrapper.

Definition Len (l : List) : nat := length l.

(** The loop of [List.Unwrap], from index [i] on. *)
Fixpoint Unwrap_from (i : nat) (l : List) : result (list Resource) :=
  match l with
  | [] => Ok []
  | w :: rest =>
      match Unwrap w with
      | Ok p => ps <- Unwrap_from (S i) rest ;; Ok (p :: ps)
      | Err err => Err (ErrWrapListItem i err)
      | Panic => Panic
      end
  end.

Definition List_Unwrap (l : List) : result (list Resource) := Unwrap_from 0 l.

(** An element slot of a slice: a value held in the slot itself (a slice of
    values), or a pointer, nil or the address of an object (a slice of
    pointers).  Two slots with the same address share one object. *)
Inductive Slot :=
| Value (r : Resource)
| Pointer (a : option nat).

(** A Go slice as [reflect] sees it, with the objects its pointers can reach:
    the element type (a pointer type or not, and the zero value that
    [reflect.New] allocates), the objects by address, the slots within the
    length, and the slots of the backing array between the length and the
    capacity.  Every pointer of a slot is an address below the number of
    objects; an object owns its own metadata. *)
Record Slice := {
  elemIsPtr : bool;
  elemZero : Resource;
  objects : list Resource;
  elems : list Slot;
  spare : list Slot
}.

Definition slice_Len (v : Slice) : nat := length (elems v).
Definition slice_Cap (v : Slice) : nat := (length (elems v) + length (spare v))%nat.

(** [reflect.MakeSlice(v.Type(), n, n)]: [n] zero values of the element
    type.  The objects stay where they are; the new slots do not point to
    them. *)
Definition MakeSlice (v : Slice) (n : nat) : Slice :=
  {| elemIsPtr := elemIsPtr v; elemZero := elemZero v; objects := objects v;
     elems := replicate n (if elemIsPtr v then Pointer None else Value (elemZero v));
     spare := [] |}.

(** [v.SetLen(v.Cap())]. *)
Definition SetLen_Cap (v : Slice) : Slice :=
  {| elemIsPtr := elemIsPtr v; elemZero := elemZero v; objects := objects v;
     elems := elems v ++ spare v; spare := [] |}.

Definition set_elems (v : Slice) (objs : list Resource) (es : list Slot) : Slice :=
  {| elemIsPtr := elemIsPtr v; elemZero := elemZero v; objects := objs;
     elems := es; spare := spare v |}.

(** What the caller passes as [ptr]. *)
Inductive Target :=
| UntypedNil                                  (* the nil interface *)
| NotPointer                                  (* v.Kind() != reflect.Ptr *)
| PointerToNonSlice                           (* v.Elem().Kind() != reflect.Slice *)
| NilPointerToResources                       (* a nil *[]corev3.Resource *)
| PointerToResources (list : list Resource)   (* *[]corev3.Resource *)
| PointerToSlice (v : Slice).

(** The loop [for i, w := range l] of [List.UnwrapInto] over the slots from
    index [i] on.  A slot that holds a value is addressed in place.  A slot
    that holds a nil pointer is first set to a newly allocated zero object,
    at the next free address.  The wrapper is then unwrapped into the object
    the slot points to, which changes that object for every slot that points
    to it. *)
Fixpoint UnwrapInto_elems (zero : Resource) (l : List) (objs : list Resource)
  (slots : list Slot) : (list Resource * list Slot) * status :=
  match l, slots with
  | [], _ => ((objs, slots), Done)
  | _ :: _, [] => ((objs, slots), Panicked)    (* v.Index(i) out of range *)
  | w :: l', Value r :: rest =>
      match UnwrapInto w (Ptr r) with
      | (p, Done) =>
          let '((objs', rest'), st) := UnwrapInto_elems zero l' objs rest in
          ((objs', Value (underlying p) :: rest'), st)
      | (p, st) => ((objs, Value (underlying p) :: rest), st)
      end
  | w :: l', Pointer elt :: rest =>
      let '(objs, a) :=
        match elt with
        | None => (objs ++ [zero], length objs)  (* elt.Set(reflect.New(...)) *)
        | Some a => (objs, a)
        end in
      match UnwrapInto w (Ptr (default zero (objs !! a))) with
      | (p, Done) =>
          let '((objs', rest'), st) :=
            UnwrapInto_elems zero l' (<[a := underlying p]> objs) rest in
          ((objs', Pointer (Some a) :: rest'), st)
      | (p, st) => ((<[a := underlying p]> objs, Pointer (Some a) :: rest), st)
      end
  end.

Definition List_UnwrapInto (l : List) (ptr : Target) : Target * status :=
  if (length l =? 0)%nat then (ptr, Done)
  else
    match ptr with
    | PointerToResources _ =>
        match List_Unwrap l with
        | Ok values => (PointerToResources values, Done)
        | Err err => (ptr, Failed err)
        | Panic => (ptr, Panicked)
        end
    | NilPointerToResources =>
        match List_Unwrap l with
        | Ok values => (ptr, Panicked)           (* *list = values on a nil list *)
        | Err err => (ptr, Failed err)
        | Panic => (ptr, Panicked)
        end
    | UntypedNil => (ptr, Panicked)              (* v.Type() on the zero Value *)
    | NotPointer => (ptr, Failed ErrNotValid_ExpectedPointer)
    | PointerToNonSlice => (ptr, Failed ErrNotValid_ExpectedSlice)
    | PointerToSlice v =>
        let v := if (slice_Cap v <? length l)%nat then MakeSlice v (length l) else v in
        let v := if (slice_Len v <? slice_Cap v)%nat then SetLen_Cap v else v in
        let '((objs, es), st) := UnwrapInto_elems (elemZero v) l (objects v) (elems v) in
        (PointerToSlice (set_elems v objs es), st)
    end.

End WithExternals.

End Wrap.

(* ===================================================================== *)
(** * Package handlers: PATCH *)
(* ===================================================================== *)

Module Handlers.

Local Open Scope string_scope.

Definition mergePatchContentType : string := "application/merge-patch+json".
Definition jsonPatchContentType : string := "application/json-patch+json".

Definition ifMatchHeader : string := "If-Match".
Definition ifNoneMatchHeader : string := "If-None-Match".

(** [acceptedContentTypes] contains the list of content types we accept. *)
Definition acceptedContentTypes : list string := [mergePatchContentType].

(** [strings.Join]. *)
Fixpoint strings_Join (elems : list string) (sep : string) : string :=
  match elems with
  | [] => ""
  | [s] => s
  | s :: rest => s ++ sep ++ strings_Join rest sep
  end.

(** The codes of package [actions] that the handler uses. *)
Inductive ErrCode :=
| InternalErr
| InvalidArgument
| NotFound
| PreconditionFailed.

(** The kinds of error the handler tells apart with a type switch. *)
Inductive ErrKind :=
| errorString                  (* any other error type *)
| store_ErrNotFound
| store_ErrNotValid
| store_ErrPreconditionFailed.

Inductive error :=
| mkError (kind : ErrKind) (msg : string)
| actions_Error (code : ErrCode) (cause : error).

(** [err.Error()] as [%s] prints it. *)
Fixpoint Error (e : error) : string :=
  match e with
  | mkError _ msg => msg
  | actions_Error _ cause => Error cause
  end.

Definition fmt_Errorf (msg : string) : error := mkError errorString msg.

Definition actions_NewError (code : ErrCode) (err : error) : error :=
  actions_Error code err.

(** [patch.Patcher]; [patch.Merge] is its only implementation used here. *)
Inductive Patcher :=
| patch_Merge (MergePatch : bytes).

(** [storev2.ID]. *)
Record ID := { ID_Namespace : string; ID_Name : string }.

(** The request context, as far as the handler writes to it. *)
Record Context := {
  ctx_IfMatch : option (list string);
  ctx_IfNoneMatch : option (list string)
}.

Definition ContextWithIfMatch (ctx : Context) (v : list string) : Context :=
  {| ctx_IfMatch := Some v; ctx_IfNoneMatch := ctx_IfNoneMatch ctx |}.

Definition ContextWithIfNoneMatch (ctx : Context) (v : list string) : Context :=
  {| ctx_IfMatch := ctx_IfMatch ctx; ctx_IfNoneMatch := Some v |}.

(** [*http.Request], as far as the handler reads it: what reading the body
    to its end gives, the headers, the context and the route variables. *)
Record Request := {
  Body : bytes * option error;
  Header : gmap string string;
  Context_ : Context;
  Vars : gmap string string
}.

(** [http.Header.Get] and the lookup in a [map[string]string]: the empty
    string when the key is absent. *)
Definition Get (m : gmap string string) (key : string) : string :=
  default "" (m !! key).

Record HandlerResponse := {
  Resource : option Wrap.Resource
}.

(** The local type [body] of [validatePatch]. *)
Record body := {
  Metadata : option Wrap.corev2_ObjectMeta
}.

(** What the handler calls and does not define. *)
Record Externals := {
  json_Unmarshal : bytes -> body -> body * option error;
  url_PathUnescape : string -> string * option error;
  ReadIfMatch : string -> list string * option error;
  ReadIfNoneMatch : string -> list string * option error;
  Patch : Context -> ID -> Patcher -> option error
}.

Section WithExternals.

Context (E : Externals).

(** The [switch] on the Content-Type header in [PatchResource]: the patcher
    it initialises, or the error it returns. *)
Definition switch_ContentType (contentType : string) (body : bytes) : Patcher + error :=
  if decide (contentType = mergePatchContentType \/ contentType = "") then
    inl (patch_Merge body)
  else if decide (contentType = jsonPatchContentType) then
    inr (actions_NewError InvalidArgument
           (fmt_Errorf ("JSON Patch is not supported yet. Allowed values: "
                        ++ strings_Join acceptedContentTypes ", ")))
  else
    inr (actions_NewError InvalidArgument
           (fmt_Errorf ("invalid Content-Type header: " ++ contentType
                        ++ ".  Allowed values: "
                        ++ strings_Join acceptedContentTypes ", "))).

Definition validatePatch (data : bytes) (vars : gmap string string) : option error :=
  let b := {| Metadata := None |} in
  match json_Unmarshal E data b with
  | (_, Some err) => Some err
  | (b, None) =>
      match Metadata b with
      | None => None
      | Some metadata =>
          match url_PathUnescape E (Get vars "namespace") with
          | (_, Some err) => Some err
          | (namespace, None) =>
              if negb (String.eqb (Wrap.Namespace metadata) "")
                 && negb (String.eqb (Wrap.Namespace metadata) namespace) then
                Some (fmt_Errorf
                        ("the namespace of the resource (" ++ Wrap.Namespace metadata
                         ++ ") does not match the namespace in the URI ("
                         ++ namespace ++ ")"))
              else
                match url_PathUnescape E (Get vars "id") with
                | (_, Some err) => Some err
                | (name, None) =>
                    if negb (String.eqb (Wrap.Name metadata) "")
                       && negb (String.eqb (Wrap.Name metadata) name) then
                      Some (fmt_Errorf
                              ("the name of the resource (" ++ Wrap.Name metadata
                               ++ ") does not match the name in the URI ("
                               ++ name ++ ")"))
                    else None
                end
          end
      end
  end.

Definition patchV3Resource (ctx : Context) (name namespace : string) (patcher : Patcher)
  : option Wrap.Resource * option error :=
  let id := {| ID_Namespace := namespace; ID_Name := name |} in
  match Patch E ctx id patcher with
  | Some err =>
      match err with
      | mkError store_ErrNotFound _ => (None, Some (actions_NewError NotFound err))
      | mkError store_ErrNotValid _ => (None, Some (actions_NewError InvalidArgument err))
      | mkError store_ErrPreconditionFailed _ =>
          (None, Some (actions_NewError PreconditionFailed err))
      | _ => (None, Some (actions_NewError InternalErr err))
      end
  | None => (None, None)
  end.

Definition PatchResource (r : Request) : HandlerResponse * option error :=
  let response := {| Resource := None |} in
  match Body r with
  | (_, Some err) =>
      (response,
       Some (actions_NewError InvalidArgument
               (fmt_Errorf ("could not read the request body: " ++ Error err))))
  | (body, None) =>
      match switch_ContentType (Get (Header r) "Content-Type") body with
      | inr err => (response, Some err)
      | inl patcher =>
          let ctx := Context_ r in
          let ifMatch :=
            let value := Get (Header r) ifMatchHeader in
            if negb (String.eqb value "") then
              match ReadIfMatch E value with
              | (_, Some err) =>
                  inr (actions_NewError InvalidArgument
                         (fmt_Errorf ("invalid If-Match header: " ++ Error err)))
              | (ifMatch, None) => inl (ContextWithIfMatch ctx ifMatch)
              end
            else inl ctx in
          match ifMatch with
          | inr err => (response, Some err)
          | inl ctx =>
              let ifNoneMatch :=
                let value := Get (Header r) ifNoneMatchHeader in
                if negb (String.eqb value "") then
                  match ReadIfNoneMatch E value with
                  | (_, Some err) =>
                      inr (actions_NewError InvalidArgument
                             (fmt_Errorf ("invalid If-None-Match header: " ++ Error err)))
                  | (ifNoneMatch, None) => inl (ContextWithIfNoneMatch ctx ifNoneMatch)
                  end
                else inl ctx in
              match ifNoneMatch with
              | inr err => (response, Some err)
              | inl ctx =>
                  let params := Vars r in
                  match url_PathUnescape E (Get params "id") with
                  | (_, Some err) => (response, Some err)
                  | (name, None) =>
                      match url_PathUnescape E (Get params "namespace") with
                      | (_, Some err) => (response, Some err)
                      | (namespace, None) =>
                          match validatePatch body params with
                          | Some err =>
                              (response, Some (actions_NewError InvalidArgument err))
                          | None =>
                              let '(resource, err) :=
                                patchV3Resource ctx name namespace patcher in
                              ({| Resource := resource |}, err)
                          end
                      end
                  end
              end
          end
      end
  end.

End WithExternals.

End Handlers.

(* ===================================================================== *)
(** * A concrete set of collaborators *)
(* ===================================================================== *)

(** Small stand-ins for the collaborators, used to run the definitions on
    concrete inputs: a registry with one type, codecs given by a table of
    documents, a compressor that frames its input with one byte. *)

Module Demo.

Import Wrap.

Local Open Scope string_scope.

#[global] Instance byte_eq_dec : EqDecision Byte.byte := Byte.byte_eq_dec.

#[global] Instance corev2_ObjectMeta_eq_dec : EqDecision corev2_ObjectMeta.
Proof. solve_decision. Defined.

#[global] Instance GoType_eq_dec : EqDecision GoType.
Proof. solve_decision. Defined.

#[global] Instance Resource_eq_dec : EqDecision Resource.
Proof. solve_decision. Defined.

Definition created_at_key : string := "sensu.io/created_at".
Definition updated_at_key : string := "sensu.io/updated_at".
Definition deleted_at_key : string := "sensu.io/deleted_at".
Definition etag_key : string := "sensu.io/etag".

(** A v3 resource type that is a protobuf message and reports its type. *)
Definition EntityConfig : GoType :=
  {| typ_Name := "EntityConfig"; typ_PkgPath := "github.com/sensu/core/v3";
     isProtoMessage := true; hasValidate := true; hasGetTypeMeta := true;
     isV3Resource := true |}.

(** A v3 resource type that is not a protobuf message. *)
Definition Note : GoType :=
  {| typ_Name := "Note"; typ_PkgPath := "example.com/notes/v1";
     isProtoMessage := false; hasValidate := true; hasGetTypeMeta := false;
     isV3Resource := true |}.

(** A type without a [Validate] method. *)
Definition Blob : GoType :=
  {| typ_Name := "Blob"; typ_PkgPath := "example.com/blobs/v1";
     isProtoMessage := false; hasValidate := false; hasGetTypeMeta := false;
     isV3Resource := false |}.

Definition zero_of (t : GoType) : Wrap.Resource :=
  {| rtype := t; Metadata := None; Spec := "" |}.

Definition meta (name : string) (labels annotations : option (gmap string string))
  : corev2_ObjectMeta :=
  {| Name := name; Namespace := "default"; Labels := labels;
     Annotations := annotations; CreatedBy := "" |}.

Definition entity_foo : Wrap.Resource :=
  {| rtype := EntityConfig;
     Metadata := Some (meta "foo" (Some (<["region" := "eu"]> ∅)) None);
     Spec := "entity_class=agent" |}.

(** An entity whose stored labels already carry the deleted-at key. *)
Definition entity_relabelled : Wrap.Resource :=
  {| rtype := EntityConfig;
     Metadata := Some (meta "bar" (Some (<[deleted_at_key := "2020-01-01T00:00:00Z"]> ∅))
                            (Some ∅));
     Spec := "" |}.

Definition entity_bare : Wrap.Resource :=
  {| rtype := EntityConfig; Metadata := None; Spec := "entity_class=proxy" |}.

Definition note_hello : Wrap.Resource :=
  {| rtype := Note; Metadata := Some (meta "hello" None None); Spec := "text=hello" |}.

Definition note_invalid : Wrap.Resource :=
  {| rtype := Note; Metadata := Some (meta "" None None); Spec := "text=" |}.

Definition blob : Wrap.Resource :=
  {| rtype := Blob; Metadata := None; Spec := "0123" |}.

(** A JSON string literal: the text between two quotation marks. *)
Definition q (s : string) : string :=
  String (Ascii.ascii_of_nat 34) (s ++ String (Ascii.ascii_of_nat 34) EmptyString).

Definition json_foo : string :=
  "{" ++ q "metadata" ++ ":{" ++ q "name" ++ ":" ++ q "foo" ++ ","
      ++ q "namespace" ++ ":" ++ q "default" ++ ","
      ++ q "labels" ++ ":{" ++ q "region" ++ ":" ++ q "eu" ++ "}},"
      ++ q "entity_class" ++ ":" ++ q "agent" ++ "}".

Definition json_relabelled : string :=
  "{" ++ q "metadata" ++ ":{" ++ q "name" ++ ":" ++ q "bar" ++ ","
      ++ q "namespace" ++ ":" ++ q "default" ++ ","
      ++ q "labels" ++ ":{" ++ q "sensu.io/deleted_at" ++ ":"
      ++ q "2020-01-01T00:00:00Z" ++ "}," ++ q "annotations" ++ ":{}}}".

Definition json_bare : string :=
  "{" ++ q "entity_class" ++ ":" ++ q "proxy" ++ "}".

Definition json_hello : string :=
  "{" ++ q "metadata" ++ ":{" ++ q "name" ++ ":" ++ q "hello" ++ ","
      ++ q "namespace" ++ ":" ++ q "default" ++ "},"
      ++ q "text" ++ ":" ++ q "hello" ++ "}".

(** The documents the codecs know: the bytes and the field values they
    carry. *)
Definition json_documents : list (bytes * (option corev2_ObjectMeta * string)) :=
  [ (list_byte_of_string json_foo, (Metadata entity_foo, Spec entity_foo));
    (list_byte_of_string json_relabelled,
       (Metadata entity_relabelled, Spec entity_relabelled));
    (list_byte_of_string json_bare, (Metadata entity_bare, Spec entity_bare));
    (list_byte_of_string json_hello, (Metadata note_hello, Spec note_hello)) ].

Definition proto_documents : list (bytes * (option corev2_ObjectMeta * string)) :=
  [ (list_byte_of_string "pb:foo", (Metadata entity_foo, Spec entity_foo));
    (list_byte_of_string "pb:relabelled",
       (Metadata entity_relabelled, Spec entity_relabelled));
    (list_byte_of_string "pb:bare", (Metadata entity_bare, Spec entity_bare)) ].

Fixpoint marshal (docs : list (bytes * (option corev2_ObjectMeta * string)))
  (v : Wrap.Resource) : result bytes :=
  match docs with
  | [] => Err (ExternalError "unsupported value")
  | (m, fields) :: rest =>
      if decide (fields = (Metadata v, Spec v)) then Ok m else marshal rest v
  end.

Fixpoint unmarshal (docs : list (bytes * (option corev2_ObjectMeta * string)))
  (m : bytes) (v : Wrap.Resource) : Wrap.Resource * option error :=
  match docs with
  | [] => (v, Some (ExternalError "unexpected end of input"))
  | (m', (md, sp)) :: rest =>
      if decide (m' = m) then ({| rtype := rtype v; Metadata := md; Spec := sp |}, None)
      else unmarshal rest m v
  end.

Definition frame : Byte.byte := Byte.xff.

Definition externals : Wrap.Externals :=
  {| Validate := fun r =>
       match Metadata r with
       | Some md => if String.eqb (Name md) "" then Some (ExternalError "name must not be empty")
                    else None
       | None => None
       end;
     tmGetter_GetTypeMeta := fun r =>
       {| Type_ := typ_Name (rtype r); APIVersion := "core/v3" |};
     ApiVersion := fun pkg => pkg;
     json_Marshal := marshal json_documents;
     json_Unmarshal := unmarshal json_documents;
     proto_Marshal := marshal proto_documents;
     proto_Unmarshal := unmarshal proto_documents;
     snappy_Encode := fun m => frame :: m;
     snappy_Decode := fun m =>
       match m with
       | b :: m' => if decide (b = frame) then Ok m'
                    else Err (ExternalError "snappy: corrupt input")
       | [] => Err (ExternalError "snappy: corrupt input")
       end;
     Resolve := fun apiVersion type =>
       if String.eqb apiVersion "core/v3" && String.eqb type "EntityConfig"
       then Ok (zero_of EntityConfig)
       else if String.eqb apiVersion "example.com/notes/v1" && String.eqb type "Note"
       then Ok (zero_of Note)
       else if String.eqb apiVersion "example.com/blobs/v1" && String.eqb type "Blob"
       then Ok (zero_of Blob)
       else Err (ExternalError "type could not be found");
     MarshalText := fun t =>
       if IsZero t then ("0001-01-01T00:00:00Z", None)
       else if (sec t =? 63745056000)%Z && (nsec t =? 0)%Z
       then ("2021-01-01T00:00:00Z", None)
       else ("", Some (ExternalError "Time.MarshalText: year outside of range"));
     SensuCreatedAtKey := created_at_key;
     SensuUpdatedAtKey := updated_at_key;
     SensuDeletedAtKey := deleted_at_key;
     SensuETagKey := etag_key |}.

Definition new_year_2021 : Time := {| sec := 63745056000; nsec := 0 |}.

Definition EntityConfig_TypeMeta : corev2_TypeMeta :=
  {| Type_ := "EntityConfig"; APIVersion := "core/v3" |}.

(** Envelopes as the store hands them back: JSON, not compressed. *)
Definition stored (doc : string) (deleted : Time) : Wrapper :=
  {| GetTypeMeta := Some EntityConfig_TypeMeta;
     GetEncoding := Encoding_json; GetCompression := Compression_none;
     GetValue := list_byte_of_string doc;
     CreatedAt := new_year_2021; UpdatedAt := new_year_2021;
     DeletedAt := deleted; ETag := "5d41402abc4b2a76" |}.

Definition wrapper_foo : Wrapper := stored json_foo zero_Time.
Definition wrapper_foo_deleted : Wrapper := stored json_foo new_year_2021.
Definition wrapper_relabelled : Wrapper := stored json_relabelled zero_Time.
Definition wrapper_bare : Wrapper := stored json_bare zero_Time.

(** What [wrap] makes of [entity_foo] without options, and with JSON and no
    compression. *)
Definition wrapped_foo : Wrapper :=
  {| GetTypeMeta := Some EntityConfig_TypeMeta;
     GetEncoding := Encoding_protobuf; GetCompression := Compression_snappy;
     GetValue := frame :: list_byte_of_string "pb:foo";
     CreatedAt := zero_Time; UpdatedAt := zero_Time; DeletedAt := zero_Time;
     ETag := "" |}.

Definition wrapped_foo_json : Wrapper :=
  {| GetTypeMeta := Some EntityConfig_TypeMeta;
     GetEncoding := Encoding_json; GetCompression := Compression_none;
     GetValue := list_byte_of_string json_foo;
     CreatedAt := zero_Time; UpdatedAt := zero_Time; DeletedAt := zero_Time;
     ETag := "" |}.

(** A [[]*EntityConfig] of length and capacity one, holding a nil pointer;
    one of length and capacity three, with two objects and a nil pointer; and
    one that holds the same pointer twice. *)
Definition one_nil : Slice :=
  {| elemIsPtr := true; elemZero := zero_of EntityConfig; objects := [];
     elems := [Pointer None]; spare := [] |}.

Definition three_entities : Slice :=
  {| elemIsPtr := true; elemZero := zero_of EntityConfig;
     objects := [entity_bare; entity_relabelled];
     elems := [Pointer (Some 0%nat); Pointer None; Pointer (Some 1%nat)];
     spare := [] |}.

Definition same_pointer_twice : Slice :=
  {| elemIsPtr := true; elemZero := zero_of EntityConfig;
     objects := [entity_bare];
     elems := [Pointer (Some 0%nat); Pointer (Some 0%nat)];
     spare := [] |}.

End Demo.

(* ===================================================================== *)
(** * Vocabulary of the properties *)
(* ===================================================================== *)

Module Props.

Import Wrap.

(** The labels and annotations of a resource, a nil metadata pointer or a
    nil map counting as no entries. *)
Definition labels_of (r : Resource) : gmap string string :=
  match Metadata r with
  | Some meta => match Labels meta with Some l => l | None => ∅ end
  | None => ∅
  end.

Definition annotations_of (r : Resource) : gmap string string :=
  match Metadata r with
  | Some meta => match Annotations meta with Some a => a | None => ∅ end
  | None => ∅
  end.

(** The options the package defines. *)
Definition builtin (opt : Option) : Prop :=
  opt = EncodeProtobuf \/ opt = EncodeJSON \/ opt = EncodeDefault
  \/ opt = CompressNone \/ opt = CompressSnappy.

(** The label keys are pairwise different. *)
Definition label_keys_distinct (E : Externals) : Prop :=
  SensuCreatedAtKey E ≠ SensuUpdatedAtKey E
  /\ SensuCreatedAtKey E ≠ SensuDeletedAtKey E
  /\ SensuUpdatedAtKey E ≠ SensuDeletedAtKey E.

(** Structural equality up to the storage keys, as the specification words
    it: same type, same fields, same name, namespace and creator, and the
    same labels and annotations once the reserved keys are left out.  A
    missing metadata block is the empty one and a nil map is the empty map. *)
Definition without_storage_labels (E : Externals) (l : gmap string string) :=
  delete (SensuCreatedAtKey E)
    (delete (SensuUpdatedAtKey E) (delete (SensuDeletedAtKey E) l)).

Definition equal_modulo_storage_keys (E : Externals) (a b : Resource) : Prop :=
  rtype a = rtype b
  /\ Spec a = Spec b
  /\ Name (default new_ObjectMeta (Metadata a)) = Name (default new_ObjectMeta (Metadata b))
  /\ Namespace (default new_ObjectMeta (Metadata a))
     = Namespace (default new_ObjectMeta (Metadata b))
  /\ CreatedBy (default new_ObjectMeta (Metadata a))
     = CreatedBy (default new_ObjectMeta (Metadata b))
  /\ without_storage_labels E (labels_of a) = without_storage_labels E (labels_of b)
  /\ delete (SensuETagKey E) (annotations_of a)
     = delete (SensuETagKey E) (annotations_of b).

(** What the built-in options leave alone and what they can set. *)
Definition same_frame (w w' : Wrapper) : Prop :=
  GetTypeMeta w' = GetTypeMeta w /\ CreatedAt w' = CreatedAt w
  /\ UpdatedAt w' = UpdatedAt w /\ DeletedAt w' = DeletedAt w /\ ETag w' = ETag w.

Definition supported_pair (w : Wrapper) (r : Resource) : Prop :=
  (GetEncoding w = Encoding_json
   \/ (GetEncoding w = Encoding_protobuf /\ isProtoMessage (rtype r) = true))
  /\ (GetCompression w = Compression_none \/ GetCompression w = Compression_snappy).

(** The addresses held by the pointers of a list of slots, in order. *)
Fixpoint pointers (slots : list Slot) : list nat :=
  match slots with
  | [] => []
  | Pointer (Some a) :: rest => a :: pointers rest
  | _ :: rest => pointers rest
  end.

(** The element a slot stands for when it is unwrapped into: the value, the
    object pointed to, or a fresh zero object for a nil pointer. *)
Definition slot_object (zero : Resource) (objs : list Resource) (slot : Slot) : Resource :=
  match slot with
  | Value r => r
  | Pointer (Some a) => default zero (objs !! a)
  | Pointer None => zero
  end.

(** The slots [List.UnwrapInto] works on once it has resized the slice for
    [n] wrappers: [n] zero slots when the capacity was too small, else the
    elements followed by the spare slots. *)
Definition resized_slots (v : Slice) (n : nat) : list Slot :=
  if (slice_Cap v <? n)%nat
  then replicate n (if elemIsPtr v then Pointer None else Value (elemZero v))
  else (elems v ++ spare v)%list.

(** What has become of a slot once a wrapper has been unwrapped into it with
    result [r]: a value is replaced in place; a pointer is kept and its object
    is [r]; a nil pointer has become the address of a new object, which is
    [r]. *)
Definition slot_after (objs objs' : list Resource) (slot : Slot) (slot' : option Slot)
  (r : Resource) : Prop :=
  match slot with
  | Value _ => slot' = Some (Value r)
  | Pointer (Some a) => slot' = Some (Pointer (Some a)) /\ objs' !! a = Some r
  | Pointer None =>
      exists a, (length objs <= a)%nat /\ slot' = Some (Pointer (Some a))
                /\ objs' !! a = Some r
  end.

(** The first [n] slots hold pairwise different pointers, each the address of
    an object. *)
Definition separate_slots (objs : list Resource) (slots : list Slot) (n : nat) : Prop :=
  NoDup (pointers (take n slots))
  /\ forall a, a ∈ pointers (take n slots) -> (a < length objs)%nat.

End Props.

Module HandlerProps.

Import Handlers.

(** The two If headers are absent (or empty), or they parse. *)
Definition precondition_headers_ok (E : Externals) (r : Request) : Prop :=
  (Get (Header r) ifMatchHeader = ""%string
   \/ (ReadIfMatch E (Get (Header r) ifMatchHeader)).2 = None)
  /\ (Get (Header r) ifNoneMatchHeader = ""%string
      \/ (ReadIfNoneMatch E (Get (Header r) ifNoneMatchHeader)).2 = None).

(** The body sets the namespace or the name to a non-empty value that is
    not the one of the route. *)
Definition changes_identity (b : body) (namespace name : string) : Prop :=
  exists md, Metadata b = Some md
    /\ ((Wrap.Namespace md ≠ ""%string /\ Wrap.Namespace md ≠ namespace)
        \/ (Wrap.Name md ≠ ""%string /\ Wrap.Name md ≠ name)).

(** The body has no metadata block, or its namespace and name are each empty
    or the one of the route. *)
Definition keeps_identity (b : body) (namespace name : string) : Prop :=
  Metadata b = None
  \/ exists md, Metadata b = Some md
       /\ (Wrap.Namespace md = ""%string \/ Wrap.Namespace md = namespace)
       /\ (Wrap.Name md = ""%string \/ Wrap.Name md = name).

End HandlerProps.

(** Stand-ins for the collaborators of the handler: a JSON decoder given by
    a table of bodies, an unescape that accepts what has no percent sign, a
    store that applies every patch. *)
Module DemoHandlers.

Import Handlers.

Local Open Scope string_scope.

Definition body_empty : bytes := list_byte_of_string "{}".

Definition body_other_namespace : bytes :=
  list_byte_of_string
    ("{" ++ Demo.q "metadata" ++ ":{" ++ Demo.q "namespace" ++ ":" ++ Demo.q "other" ++ "}}").

Definition body_same_identity : bytes :=
  list_byte_of_string
    ("{" ++ Demo.q "metadata" ++ ":{" ++ Demo.q "namespace" ++ ":" ++ Demo.q "default"
         ++ "," ++ Demo.q "name" ++ ":" ++ Demo.q "foo" ++ "}}").

Definition identity (namespace name : string) : Wrap.corev2_ObjectMeta :=
  {| Wrap.Name := name; Wrap.Namespace := namespace; Wrap.Labels := None;
     Wrap.Annotations := None; Wrap.CreatedBy := "" |}.

Fixpoint has_percent (s : string) : bool :=
  match s with
  | EmptyString => false
  | String c rest => Ascii.eqb c "%"%char || has_percent rest
  end.

Definition externals : Externals :=
  {| json_Unmarshal := fun data b =>
       if decide (data = body_empty) then (b, None)
       else if decide (data = body_other_namespace)
       then ({| Metadata := Some (identity "other" "") |}, None)
       else if decide (data = body_same_identity)
       then ({| Metadata := Some (identity "default" "foo") |}, None)
       else (b, Some (mkError errorString "unexpected end of JSON input"));
     url_PathUnescape := fun s =>
       if has_percent s then ("", Some (mkError errorString "invalid URL escape"))
       else (s, None);
     ReadIfMatch := fun v => ([v], None);
     ReadIfNoneMatch := fun v => ([v], None);
     Patch := fun _ _ _ => None |}.

(** A PATCH on the route [(namespace = default, id = foo)]. *)
Definition request (contentType : option string) (body : bytes) : Request :=
  {| Body := (body, None);
     Header := match contentType with
               | Some ct => <["Content-Type" := ct]> ∅
               | None => ∅
               end;
     Context_ := {| ctx_IfMatch := None; ctx_IfNoneMatch := None |};
     Vars := <["namespace" := "default"]> (<["id" := "foo"]> ∅) |}.

(** A store that holds one resource, [default/foo], with ETag [etag]. *)
Definition store_with_etag (etag : string) (ctx : Context) (id : ID) (p : Patcher)
  : option error :=
  if negb (String.eqb (ID_Name id) "foo") then
    Some (mkError store_ErrNotFound "not found")
  else
    match ctx_IfMatch ctx with
    | Some tags =>
        if bool_decide (etag ∈ tags) then None
        else Some (mkError store_ErrPreconditionFailed "precondition failed")
    | None => None
    end.

Definition externals_with_store (etag : string) : Externals :=
  {| json_Unmarshal := json_Unmarshal externals;
     url_PathUnescape := url_PathUnescape externals;
     ReadIfMatch := ReadIfMatch externals;
     ReadIfNoneMatch := ReadIfNoneMatch externals;
     Patch := store_with_etag etag |}.

(** A PATCH on the same route with an If-Match and an If-None-Match
    header. *)
Definition conditional_request (ifMatch ifNoneMatch : string) (body : bytes) : Request :=
  {| Body := (body, None);
     Header := <["If-Match" := ifMatch]> (<["If-None-Match" := ifNoneMatch]> ∅);
     Context_ := {| ctx_IfMatch := None; ctx_IfNoneMatch := None |};
     Vars := <["namespace" := "default"]> (<["id" := "foo"]> ∅) |}.

End DemoHandlers.

(* ===================================================================== *)
(** * Package silenced *)
(* ===================================================================== *)

Module Silenced.

Local Open Scope string_scope.

(** [corev2.Silenced], with the two fields the package reads and the rest of
    the entry (what it matches) kept as one value. *)
Record corev2_Silenced := {
  Name : string;
  ExpireAt : Z;
  Matcher : string
}.

(** [corev2.Check], likewise. *)
Record corev2_Check := {
  Namespace : string;
  Silenced : list string;
  CheckRest : string
}.

(** [corev2.Event]; a nil check is [None]. *)
Record corev2_Event := {
  Check : option corev2_Check;
  EventRest : string
}.

(** [event.HasCheck]. *)
Definition HasCheck (event : corev2_Event) : bool :=
  match Check event with Some _ => true | None => false end.

Definition set_Silenced (event : corev2_Event) (ids : list string) : corev2_Event :=
  match Check event with
  | Some check =>
      {| Check := Some {| Namespace := Namespace check; Silenced := ids;
                          CheckRest := CheckRest check |};
         EventRest := EventRest event |}
  | None => event
  end.

(** What the package calls and does not define: [stringsutil.InArray], the
    method [Event.SilencedBy] and the clock: [Now k] is what the call number
    [k] of [time.Now] returns, as the seconds since January 1 of year 1 and
    the nanoseconds within the second that [Time.Before] compares. *)
Record Externals := {
  InArray : string -> list string -> bool;
  Event_SilencedBy : corev2_Event -> list corev2_Silenced -> list corev2_Silenced;
  Now : nat -> Z * Z
}.

(** [SilencesCache]: the entries the cache holds for a namespace. *)
Definition SilencesCache := string -> list corev2_Silenced.

Section WithExternals.

Context (E : Externals).

(** [AddToSilencedBy] takes a silenced entry ID and adds it to a list of IDs
    if it's not already present. *)
Definition AddToSilencedBy (id : string) (ids : list string) : list string :=
  if negb (InArray E id ids) then ids ++ [id] else ids.

(** Arithmetic on [int64] wraps around. *)
Definition wrap_int64 (z : Z) : Z :=
  ((z + 2 ^ 63) mod 2 ^ 64 - 2 ^ 63)%Z.

(** The seconds from January 1 of year 1 to the Unix epoch. *)
Definition unixToInternal : Z := 62135596800.

(** [time.Unix(expireAt, 0).Before(now)]: [time.Unix] adds [unixToInternal]
    to the seconds in [int64], and [Before] compares seconds, then
    nanoseconds. *)
Definition Unix_Before (expireAt : Z) (now : Z * Z) : bool :=
  let sec := wrap_int64 (expireAt + unixToInternal) in
  (sec <? now.1)%Z || ((sec =? now.1)%Z && (0 <? now.2)%Z).

(** The loop of [SilencedBy]. *)
Fixpoint add_names (silencedBy : list corev2_Silenced) (names : list string)
  : list string :=
  match silencedBy with
  | [] => names
  | entry :: rest => add_names rest (AddToSilencedBy (Name entry) names)
  end.

Definition SilencedBy (event : corev2_Event) (silencedEntries : list corev2_Silenced)
  : list string :=
  let silencedBy := Event_SilencedBy E event silencedEntries in
  add_names silencedBy [].

(** The loop of [GetSilenced] over the cache entries, [k] being the number
    of times the clock has been read so far: the clock is read only for an
    entry with a positive [ExpireAt]. *)
Fixpoint live_entries (k : nat) (cacheEntries : list corev2_Silenced)
  : list corev2_Silenced :=
  match cacheEntries with
  | [] => []
  | silenced :: rest =>
      if (0 <? ExpireAt silenced)%Z then
        if Unix_Before (ExpireAt silenced) (Now E k) then live_entries (S k) rest
        else silenced :: live_entries (S k) rest
      else silenced :: live_entries k rest
  end.

(** [GetSilenced] works on the event in place; the result is the event after
    the call. *)
Definition GetSilenced (event : corev2_Event) (cache : SilencesCache) : corev2_Event :=
  if negb (HasCheck event) then event
  else
    match Check event with
    | None => event
    | Some check =>
        let cacheEntries := cache (Namespace check) in
        let entries := live_entries 0 cacheEntries in
        let silencedIDs := SilencedBy event entries in
        set_Silenced event silencedIDs
    end.

End WithExternals.

End Silenced.

(** Stand-ins for the collaborators of package silenced: membership for
    [InArray], a matcher that keeps the entries whose matcher is the wildcard
    or the rest of the event, and a clock that advances by a second at each
    reading. *)
Module DemoSilenced.

Import Silenced.

Local Open Scope string_scope.

Definition externals : Externals :=
  {| InArray := fun item array => bool_decide (item ∈ array);
     Event_SilencedBy := fun event entries =>
       List.filter (fun e => String.eqb (Matcher e) "*"
                             || String.eqb (Matcher e) (EventRest event)) entries;
     Now := fun k => (1700000000 + unixToInternal + Z.of_nat k, 5) |}.

Definition entry (name : string) (expireAt : Z) (matcher : string) : corev2_Silenced :=
  {| Name := name; ExpireAt := expireAt; Matcher := matcher |}.

Definition cache : SilencesCache := fun namespace =>
  if String.eqb namespace "default" then
    [ entry "linux:*" (-1) "*";
      entry "old:*" 1600000000 "*";
      entry "linux:*" 0 "entity1";
      entry "web:check1" 1800000000 "entity1";
      entry "db:check2" 0 "entity2";
      entry "far:*" 9223372036854775807 "*" ]
  else [].

Definition event1 : corev2_Event :=
  {| Check := Some {| Namespace := "default"; Silenced := ["stale"]; CheckRest := "check1" |};
     EventRest := "entity1" |}.

End DemoSilenced.

Module SilencedProps.

Import Silenced.

(** [InArray] answers true only for an item of the array. *)
Definition InArray_sound (E : Externals) : Prop :=
  forall item array, InArray E item array = true -> item ∈ array.

(** [InArray] finds every item of the array that is not the empty string. *)
Definition InArray_finds_names (E : Externals) : Prop :=
  forall item array, item ≠ ""%string -> item ∈ array -> InArray E item array = true.

(** [Event.SilencedBy] returns entries it was given. *)
Definition SilencedBy_selects (E : Externals) : Prop :=
  forall event entries entry,
    entry ∈ Event_SilencedBy E event entries -> entry ∈ entries.

End SilencedProps.

Module OptionKinds.

Import Wrap.

(** The built-in options by the field they set. *)
Definition encoding_option (opt : Option) : Prop :=
  opt = EncodeProtobuf \/ opt = EncodeJSON \/ opt = EncodeDefault.

Definition compression_option (opt : Option) : Prop :=
  opt = CompressNone \/ opt = CompressSnappy.

End OptionKinds.

(* ===================================================================== *)
(** * Properties of package wrap *)
(* ===================================================================== *)

Import Wrap Props.

Local Open Scope string_scope.

(** ** Compression *)

Lemma Compression_String_unknown (c : Compression) :
  c ≠ Compression_none -> c ≠ Compression_snappy -> Compression_String c = "".
Proof.
  unfold Compression_none, Compression_snappy, Compression_String, Compression_name.
  intros H0 H1.
  rewrite lookup_insert_ne by congruence.
  rewrite lookup_insert_ne by congruence.
  reflexivity.
Qed.

Lemma Compress_not_snappy (E : Externals) (c : Compression) (m : bytes) :
  c ≠ Compression_snappy -> Compress E c m = m.
Proof.
  intros Hc. unfold Compress.
  destruct (c =? Compression_none)%Z; [reflexivity|].
  destruct (Z.eqb_spec c Compression_snappy); [contradiction|reflexivity].
Qed.

(** C10. [Compress] returns bytes for every tag and every input and has no
    error result; the none tag and every tag outside the enum give the input
    back unchanged, so only the snappy tag can change the bytes; while
    [Decompress] with a tag outside the enum fails with the error "invalid
    compression: " followed by the (empty) name of the tag. *)
Theorem Compress_total_Decompress_strict
  (E : Externals) (c : Compression) (m : bytes) :
  c ≠ Compression_none -> c ≠ Compression_snappy ->
  Compress E c m = m
  /\ Compress E Compression_none m = m
  /\ Compress E Compression_snappy m = snappy_Encode E m
  /\ Decompress E Compression_none m = Ok m
  /\ Decompress E c m = Err (ErrInvalidCompression "")
  /\ (forall c' m', Compress E c' m' ≠ m' -> c' = Compression_snappy).
Proof.
  intros H0 H1. repeat split.
  - by apply Compress_not_snappy.
  - unfold Decompress.
    destruct (Z.eqb_spec c Compression_none); [contradiction|].
    destruct (Z.eqb_spec c Compression_snappy); [contradiction|].
    by rewrite Compression_String_unknown.
  - intros c' m' Hne.
    destruct (decide (c' = Compression_snappy)) as [|Hc]; [assumption|].
    exfalso. apply Hne. by apply Compress_not_snappy.
Qed.

Lemma Compress_total_Decompress_strict_witness :
  let m := list_byte_of_string "abc" in
  Compress Demo.externals 7 m = m
  /\ Decompress Demo.externals 7 m = Err (ErrInvalidCompression "").
Proof.
  pose proof (Compress_total_Decompress_strict Demo.externals 7
                (list_byte_of_string "abc")) as H.
  destruct H as (Hc & _ & _ & _ & Hd & _); [discriminate | discriminate |].
  split; [exact Hc | exact Hd].
Defined.

(** ** The validation gate *)

(** C3. [wrap] on a value without a [Validate] method fails with
    [ErrValidateMethodMissing] whatever the value holds and whatever the
    options are; when [Validate] returns an error, [wrap] fails with that
    error; and a wrapper is only ever returned for a value that has the
    method and passed it. *)
Theorem wrap_validation_gate (E : Externals) (r : iface) (opts : list Option) :
  (validatable r = false -> wrap E r opts = Err ErrValidateMethodMissing)
  /\ (forall err, validatable r = true -> Validate E (underlying r) = Some err ->
        wrap E r opts = Err err)
  /\ (forall w, wrap E r opts = Ok w ->
        validatable r = true /\ Validate E (underlying r) = None
        /\ wrapWithoutValidation E r opts = Ok w).
Proof.
  unfold wrap. repeat split.
  - intros ->. reflexivity.
  - intros err -> ->. reflexivity.
  - destruct (validatable r); [reflexivity|discriminate].
  - destruct (validatable r); [|discriminate].
    destruct (Validate E (underlying r)); [discriminate|reflexivity].
  - destruct (validatable r); [|discriminate].
    destruct (Validate E (underlying r)); [discriminate|assumption].
Qed.

Lemma wrap_validation_gate_witness :
  wrap Demo.externals (Ptr Demo.blob) [EncodeJSON] = Err ErrValidateMethodMissing
  /\ wrap Demo.externals (Ptr Demo.note_invalid) []
     = Err (ExternalError "name must not be empty")
  /\ Validate Demo.externals Demo.entity_foo = None.
Proof.
  split; [|split].
  - apply (proj1 (wrap_validation_gate Demo.externals (Ptr Demo.blob) [EncodeJSON])).
    reflexivity.
  - apply (proj1 (proj2 (wrap_validation_gate Demo.externals (Ptr Demo.note_invalid) [])));
      reflexivity.
  - apply (proj2 (proj2 (wrap_validation_gate Demo.externals (Ptr Demo.entity_foo) []))
             (set_Value
                (set_Compression (set_Encoding
                   (new_Wrapper {| Type_ := "EntityConfig"; APIVersion := "core/v3" |})
                   Encoding_protobuf) Compression_snappy)
                (Demo.frame :: list_byte_of_string "pb:foo"))).
    vm_compute. reflexivity.
Defined.

(** ** Options and the default encoding *)

Lemma bind_Ok_inv {A B} (x : result A) (f : A -> result B) (b : B) :
  bind x f = Ok b -> exists a, x = Ok a /\ f a = Ok b.
Proof. destruct x; simpl; intros H; try discriminate. eauto. Qed.

Lemma apply_opts_app (opts1 opts2 : list Option) (w : Wrapper) (r : Resource) :
  apply_opts (opts1 ++ opts2) w r
  = bind (apply_opts opts1 w r) (fun w' => apply_opts opts2 w' r).
Proof.
  revert w. induction opts1 as [|opt rest IH]; intros w; simpl; [reflexivity|].
  destruct (opt w r) as [w' [err|]]; [reflexivity|apply IH].
Qed.

Lemma apply_opts_result (opts : list Option) (w : Wrapper) (r : Resource) :
  apply_opts opts w r ≠ Panic.
Proof.
  revert w. induction opts as [|opt rest IH]; intros w; simpl; [discriminate|].
  destruct (opt w r) as [w' [err|]]; [discriminate|apply IH].
Qed.

Lemma apply_defaults (opts : list Option) (w : Wrapper) (r : Resource) :
  apply_opts ([EncodeDefault; CompressDefault] ++ opts) w r
  = apply_opts opts
      (set_Compression
         (set_Encoding w (if isProtoMessage (rtype r) then Encoding_protobuf
                          else Encoding_json))
         Compression_snappy) r.
Proof. simpl. destruct (isProtoMessage (rtype r)); reflexivity. Qed.

Lemma EncodeProtobuf_rejects (pre post : list Option) (w : Wrapper) (r : Resource) :
  isProtoMessage (rtype r) = false ->
  exists err, apply_opts (pre ++ EncodeProtobuf :: post) w r = Err err.
Proof.
  intros Hp. rewrite apply_opts_app.
  destruct (apply_opts pre w r) as [w'|err|] eqn:Hpre; simpl.
  - unfold EncodeProtobuf. rewrite Hp. simpl. eauto.
  - eauto.
  - by apply apply_opts_result in Hpre.
Qed.

Lemma wrap_Ok_inv (E : Externals) (r : iface) (opts : list Option) (w : Wrapper) :
  wrap E r opts = Ok w -> wrapWithoutValidation E r opts = Ok w.
Proof.
  unfold wrap. destruct (validatable r); [|discriminate].
  destruct (Validate E (underlying r)); [discriminate|trivial].
Qed.

(** C7. Without options the wrapper is encoded as protobuf when the value is
    a [proto.Message] and as JSON otherwise (and compressed with snappy);
    the two defaults run before the caller's options, so the options work on
    a wrapper that already has them and the last one to set a field wins;
    and an [EncodeProtobuf] option on a value that is not a [proto.Message]
    makes the wrapping fail, wherever it stands among the options.  For
    every list of options [wrapWithoutValidation] is the option loop run on
    the wrapper with both defaults set, followed by encoding and
    compression; so an option that sets only the compression keeps the
    default encoding, and one that sets only the encoding keeps snappy. *)
Theorem encoding_default_and_override (E : Externals) (r : iface) :
  (forall m,
      Encode E (if isProtoMessage (rtype (underlying r)) then Encoding_protobuf
                else Encoding_json) (underlying r) = Ok m ->
      exists w, wrapWithoutValidation E r [] = Ok w
        /\ GetEncoding w = (if isProtoMessage (rtype (underlying r))
                            then Encoding_protobuf else Encoding_json)
        /\ GetCompression w = Compression_snappy
        /\ GetValue w = snappy_Encode E m)
  /\ (forall opts w0,
        apply_opts ([EncodeDefault; CompressDefault] ++ opts) w0 (underlying r)
        = apply_opts opts
            (set_Compression
               (set_Encoding w0 (if isProtoMessage (rtype (underlying r))
                                 then Encoding_protobuf else Encoding_json))
               Compression_snappy) (underlying r))
  /\ (forall m, json_Marshal E (underlying r) = Ok m ->
        exists w, wrapWithoutValidation E r [EncodeJSON; CompressNone] = Ok w
          /\ GetEncoding w = Encoding_json
          /\ GetCompression w = Compression_none
          /\ GetValue w = m)
  /\ (forall opts w, wrapWithoutValidation E r (opts ++ [EncodeJSON]) = Ok w ->
        GetEncoding w = Encoding_json)
  /\ (isProtoMessage (rtype (underlying r)) = false ->
        wrapWithoutValidation E r [EncodeProtobuf]
        = Err (ErrProtobufEncodingRequested (rtype (underlying r)))
        /\ forall pre post w,
             wrapWithoutValidation E r (pre ++ EncodeProtobuf :: post) ≠ Ok w
             /\ wrap E r (pre ++ EncodeProtobuf :: post) ≠ Ok w)
  /\ (forall opts,
        wrapWithoutValidation E r opts
        = bind (apply_opts opts
                  (set_Compression
                     (set_Encoding
                        (new_Wrapper
                           (if hasGetTypeMeta (rtype (underlying r))
                            then tmGetter_GetTypeMeta E (underlying r)
                            else {| Type_ := typ_Name (rtype (underlying r));
                                    APIVersion :=
                                      ApiVersion E (typ_PkgPath (rtype (underlying r))) |}))
                        (if isProtoMessage (rtype (underlying r))
                         then Encoding_protobuf else Encoding_json))
                     Compression_snappy)
                  (underlying r))
            (fun w =>
               bind (Encode E (GetEncoding w) (underlying r))
                 (fun message =>
                    Ok (set_Value w (Compress E (GetCompression w) message)))))
  /\ (forall m,
        Encode E (if isProtoMessage (rtype (underlying r)) then Encoding_protobuf
                  else Encoding_json) (underlying r) = Ok m ->
        exists w, wrapWithoutValidation E r [CompressNone] = Ok w
          /\ GetEncoding w = (if isProtoMessage (rtype (underlying r))
                              then Encoding_protobuf else Encoding_json)
          /\ GetCompression w = Compression_none
          /\ GetValue w = m)
  /\ (forall m, json_Marshal E (underlying r) = Ok m ->
        exists w, wrapWithoutValidation E r [EncodeJSON] = Ok w
          /\ GetEncoding w = Encoding_json
          /\ GetCompression w = Compression_snappy
          /\ GetValue w = snappy_Encode E m).
Proof.
  assert (forall opts,
            wrapWithoutValidation E r opts
            = bind (apply_opts opts
                      (set_Compression
                         (set_Encoding
                            (new_Wrapper
                               (if hasGetTypeMeta (rtype (underlying r))
                                then tmGetter_GetTypeMeta E (underlying r)
                                else {| Type_ := typ_Name (rtype (underlying r));
                                        APIVersion :=
                                          ApiVersion E
                                            (typ_PkgPath (rtype (underlying r))) |}))
                            (if isProtoMessage (rtype (underlying r))
                             then Encoding_protobuf else Encoding_json))
                         Compression_snappy)
                      (underlying r))
                (fun w =>
                   bind (Encode E (GetEncoding w) (underlying r))
                     (fun message =>
                        Ok (set_Value w (Compress E (GetCompression w) message)))))
    as Hloop.
  { intros opts. unfold wrapWithoutValidation. rewrite apply_defaults. reflexivity. }
  repeat apply conj.
  8:{ intros m Hm. rewrite Hloop. simpl. unfold Encode. simpl. rewrite Hm. simpl.
      eexists. split; [reflexivity|]. simpl. repeat split. }
  7:{ intros m Hm. rewrite Hloop. simpl. rewrite Hm. simpl.
      eexists. split; [reflexivity|]. simpl. repeat split. }
  6:{ exact Hloop. }
  - intros m Hm. unfold wrapWithoutValidation. rewrite apply_defaults. simpl.
    rewrite Hm. simpl. eexists. split; [reflexivity|]. simpl.
    repeat split.
  - intros opts w0. apply apply_defaults.
  - intros m Hm. unfold wrapWithoutValidation. rewrite apply_defaults. simpl.
    unfold Encode. simpl. rewrite Hm. simpl. eexists. split; [reflexivity|].
    simpl. repeat split.
  - intros opts w. unfold wrapWithoutValidation. rewrite apply_defaults.
    rewrite apply_opts_app. intros H.
    apply bind_Ok_inv in H as (w1 & H1 & H).
    apply bind_Ok_inv in H1 as (w2 & _ & H1). simpl in H1.
    apply bind_Ok_inv in H as (m & _ & H).
    injection H1 as <-. injection H as <-. reflexivity.
  - intros Hp. split.
    + unfold wrapWithoutValidation. simpl. rewrite Hp. simpl.
      unfold EncodeProtobuf. rewrite Hp. reflexivity.
    + intros pre post w.
      assert (wrapWithoutValidation E r (pre ++ EncodeProtobuf :: post) ≠ Ok w) as Hne.
      { unfold wrapWithoutValidation. rewrite apply_defaults.
        destruct (EncodeProtobuf_rejects pre post
                    (set_Compression
                       (set_Encoding
                          (new_Wrapper
                             (if hasGetTypeMeta (rtype (underlying r))
                              then tmGetter_GetTypeMeta E (underlying r)
                              else {| Type_ := typ_Name (rtype (underlying r));
                                      APIVersion :=
                                        ApiVersion E (typ_PkgPath (rtype (underlying r))) |}))
                          (if isProtoMessage (rtype (underlying r))
                           then Encoding_protobuf else Encoding_json))
                       Compression_snappy)
                    (underlying r) Hp) as [err ->].
        discriminate. }
      split; [exact Hne|]. intros Hw. apply Hne. by apply wrap_Ok_inv.
Qed.

Lemma encoding_default_and_override_witness :
  (exists w, wrapWithoutValidation Demo.externals (Ptr Demo.entity_foo) [] = Ok w
     /\ GetEncoding w = Encoding_protobuf)
  /\ (exists w, wrapWithoutValidation Demo.externals (Ptr Demo.note_hello) [] = Ok w
        /\ GetEncoding w = Encoding_json)
  /\ (exists w, wrapWithoutValidation Demo.externals (Ptr Demo.entity_foo)
                  [EncodeJSON; CompressNone] = Ok w
        /\ GetEncoding w = Encoding_json /\ GetCompression w = Compression_none)
  /\ wrapWithoutValidation Demo.externals (Ptr Demo.note_hello) [EncodeProtobuf]
     = Err (ErrProtobufEncodingRequested Demo.Note)
  /\ (exists w, wrapWithoutValidation Demo.externals (Ptr Demo.entity_foo)
                  [CompressNone] = Ok w
        /\ GetEncoding w = Encoding_protobuf /\ GetCompression w = Compression_none)
  /\ (exists w, wrapWithoutValidation Demo.externals (Ptr Demo.entity_foo)
                  [EncodeJSON] = Ok w
        /\ GetEncoding w = Encoding_json /\ GetCompression w = Compression_snappy).
Proof.
  split; [|split; [|split; [|split; [|split]]]].
  - destruct (proj1 (encoding_default_and_override Demo.externals (Ptr Demo.entity_foo))
                (list_byte_of_string "pb:foo") eq_refl) as (w & Hw & He & _).
    exists w. split; [exact Hw|exact He].
  - destruct (proj1 (encoding_default_and_override Demo.externals (Ptr Demo.note_hello))
                (list_byte_of_string Demo.json_hello) eq_refl) as (w & Hw & He & _).
    exists w. split; [exact Hw|exact He].
  - destruct (proj1 (proj2 (proj2
                (encoding_default_and_override Demo.externals (Ptr Demo.entity_foo))))
                (list_byte_of_string Demo.json_foo) eq_refl) as (w & Hw & He & Hc & _).
    exists w. repeat split; assumption.
  - apply (proj1 (proj2 (proj2 (proj2 (proj2
             (encoding_default_and_override Demo.externals (Ptr Demo.note_hello))))))).
    reflexivity.
  - destruct (proj1 (proj2 (proj2 (proj2 (proj2 (proj2 (proj2
                (encoding_default_and_override Demo.externals (Ptr Demo.entity_foo))))))))
                (list_byte_of_string "pb:foo") eq_refl) as (w & Hw & He & Hc & _).
    exists w. repeat split; assumption.
  - destruct (proj2 (proj2 (proj2 (proj2 (proj2 (proj2 (proj2
                (encoding_default_and_override Demo.externals (Ptr Demo.entity_foo))))))))
                (list_byte_of_string Demo.json_foo) eq_refl) as (w & Hw & He & Hc & _).
    exists w. repeat split; assumption.
Defined.

(** ** Lists of wrappers *)

(** C9. [List.UnwrapInto] on a list of no wrappers returns nil and leaves
    what [ptr] points to as it was, whatever [ptr] is: no resize, no element
    touched, no check of the target's kind. *)
Theorem List_UnwrapInto_empty (E : Externals) (l : List) (ptr : Target) :
  Len l = 0%nat ->
  List_UnwrapInto E l ptr = (ptr, Done).
Proof.
  intros Hlen. destruct l as [|w l]; [|discriminate Hlen].
  unfold List_UnwrapInto. simpl. reflexivity.
Qed.

Lemma List_UnwrapInto_empty_witness :
  List_UnwrapInto Demo.externals [] (PointerToSlice Demo.three_entities)
  = (PointerToSlice Demo.three_entities, Done)
  /\ List_UnwrapInto Demo.externals [] NotPointer = (NotPointer, Done).
Proof.
  split.
  - apply (List_UnwrapInto_empty Demo.externals [] (PointerToSlice Demo.three_entities)).
    reflexivity.
  - apply (List_UnwrapInto_empty Demo.externals [] NotPointer). reflexivity.
Defined.

(** ** Hydration *)

Lemma Unwrap_Ok_inv (E : Externals) (w : Wrapper) (r : Resource) :
  Unwrap E w = Ok r ->
  exists r0, UnwrapRaw E w = Ok r0 /\ isV3Resource (rtype r0) = true
    /\ rtype r = rtype r0 /\ Spec r = Spec r0
    /\ Metadata r
       = Some {| Name := Name (default new_ObjectMeta (Metadata r0));
                 Namespace := Namespace (default new_ObjectMeta (Metadata r0));
                 Labels :=
                   Some (let l := <[SensuUpdatedAtKey E := timeText E (UpdatedAt w)]>
                                    (<[SensuCreatedAtKey E := timeText E (CreatedAt w)]>
                                       (labels_of r0)) in
                         if IsZero (DeletedAt w) then l
                         else <[SensuDeletedAtKey E := timeText E (DeletedAt w)]> l);
                 Annotations := Some (<[SensuETagKey E := ETag w]> (annotations_of r0));
                 CreatedBy := CreatedBy (default new_ObjectMeta (Metadata r0)) |}.
Proof.
  unfold Unwrap. intros H. apply bind_Ok_inv in H as (r0 & Hraw & H).
  exists r0. split; [exact Hraw|].
  destruct (isV3Resource (rtype r0)); simpl in H; [|discriminate].
  injection H as <-. split; [reflexivity|].
  unfold labels_of, annotations_of.
  destruct r0 as [t [meta|] sp]; simpl;
    destruct (IsZero (DeletedAt w)); simpl; auto.
Qed.

(** C6 (as the code has it). A resource returned by [Unwrap] has metadata,
    with labels and annotations that are not nil; the created-at and
    updated-at labels hold the text of the wrapper's timestamps and the etag
    annotation holds the wrapper's ETag; when [DeletedAt] is not zero the
    deleted-at label holds its text, and when it is zero the label is left as
    the payload had it. *)
Theorem Unwrap_hydrates (E : Externals) (w : Wrapper) (r : Resource) :
  label_keys_distinct E ->
  Unwrap E w = Ok r ->
  exists r0 meta labels annotations,
    UnwrapRaw E w = Ok r0
    /\ Metadata r = Some meta
    /\ Labels meta = Some labels
    /\ Annotations meta = Some annotations
    /\ labels !! SensuCreatedAtKey E = Some (timeText E (CreatedAt w))
    /\ labels !! SensuUpdatedAtKey E = Some (timeText E (UpdatedAt w))
    /\ annotations !! SensuETagKey E = Some (ETag w)
    /\ labels !! SensuDeletedAtKey E
       = if IsZero (DeletedAt w) then labels_of r0 !! SensuDeletedAtKey E
         else Some (timeText E (DeletedAt w)).
Proof.
  intros (Hcu & Hcd & Hud) H.
  apply Unwrap_Ok_inv in H as (r0 & Hraw & _ & _ & _ & Hmeta).
  exists r0. eexists _, _, _. split; [exact Hraw|].
  split; [exact Hmeta|]. simpl. split; [reflexivity|]. split; [reflexivity|].
  destruct (IsZero (DeletedAt w)); simpl.
  - rewrite (lookup_insert_ne _ (SensuUpdatedAtKey E) (SensuCreatedAtKey E)) by congruence.
    rewrite !lookup_insert_eq.
    rewrite (lookup_insert_ne _ (SensuUpdatedAtKey E) (SensuDeletedAtKey E)) by congruence.
    rewrite (lookup_insert_ne _ (SensuCreatedAtKey E) (SensuDeletedAtKey E)) by congruence.
    auto.
  - rewrite (lookup_insert_ne _ (SensuDeletedAtKey E) (SensuCreatedAtKey E)) by congruence.
    rewrite (lookup_insert_ne _ (SensuUpdatedAtKey E) (SensuCreatedAtKey E)) by congruence.
    rewrite (lookup_insert_ne _ (SensuDeletedAtKey E) (SensuUpdatedAtKey E)) by congruence.
    rewrite !lookup_insert_eq. auto.
Qed.

Lemma Unwrap_hydrates_witness :
  exists r labels,
    Unwrap Demo.externals Demo.wrapper_foo_deleted = Ok r
    /\ (Metadata r ≫= Labels) = Some labels
    /\ labels !! Demo.created_at_key = Some "2021-01-01T00:00:00Z"
    /\ labels !! Demo.deleted_at_key = Some "2021-01-01T00:00:00Z".
Proof.
  destruct (Unwrap Demo.externals Demo.wrapper_foo_deleted) as [r| |] eqn:Hr;
    [|vm_compute in Hr; discriminate..].
  destruct (Unwrap_hydrates Demo.externals Demo.wrapper_foo_deleted r)
    as (r0 & meta & labels & annotations & _ & Hm & Hl & _ & Hc & _ & _ & Hd).
  - repeat split; discriminate.
  - exact Hr.
  - exists r, labels. split; [reflexivity|]. rewrite Hm. simpl.
    split; [exact Hl|]. split; [exact Hc|exact Hd].
Defined.

(** C6 as stated fails: the payload of [Demo.wrapper_relabelled] carries a
    deleted-at label, so the unwrapped resource has that label although the
    wrapper's [DeletedAt] is zero. *)
Lemma deleted_at_label_without_tombstone :
  exists r,
    Unwrap Demo.externals Demo.wrapper_relabelled = Ok r
    /\ ~ (is_Some (labels_of r !! SensuDeletedAtKey Demo.externals)
          <-> IsZero (DeletedAt Demo.wrapper_relabelled) = false).
Proof.
  eexists. split; [vm_compute; reflexivity|].
  intros [Hfwd _].
  assert (IsZero (DeletedAt Demo.wrapper_relabelled) = false) as Hz.
  { apply Hfwd. vm_compute. eauto. }
  vm_compute in Hz. discriminate.
Qed.

(** ** [UnwrapInto] against [Unwrap] *)

(** After a successful [UnwrapInto] the annotations of a v3 target are the
    ones the payload decoded to: no ETag is written to them. *)
Lemma UnwrapInto_annotations (E : Externals) (w : Wrapper) (p p' : iface) :
  UnwrapInto E w p = (p', Done) ->
  exists message p0,
    Decompress E (GetCompression w) (GetValue w) = Ok message
    /\ Decode E (GetEncoding w) message (underlying p) = (p0, None)
    /\ annotations_of (underlying p') = annotations_of p0.
Proof.
  unfold UnwrapInto.
  destruct (Decompress E (GetCompression w) (GetValue w)) as [message|err|];
    [|discriminate..].
  destruct (Decode E (GetEncoding w) message (underlying p)) as [p0 [err|]] eqn:Hd;
    [discriminate|].
  intros H. exists message, p0. split; [reflexivity|]. split; [exact Hd|].
  destruct (isV3Resource (rtype p0)).
  - destruct p0 as [t [meta|] sp]; simpl in H; [|discriminate].
    injection H as <-. unfold annotations_of.
    destruct p; simpl; destruct (Annotations meta); reflexivity.
  - injection H as <-. destruct p; reflexivity.
Qed.

(** C4 (the code departs from it). On the stored envelope [Demo.wrapper_foo]
    [Unwrap] writes the ETag under the etag annotation, while [UnwrapInto],
    given a fresh instance of the same type, returns nil with the same labels
    and without that annotation; and on [Demo.wrapper_bare], whose payload has
    no metadata, [Unwrap] makes the metadata while [UnwrapInto] panics on
    the nil pointer. *)
Theorem UnwrapInto_misses_etag_and_nil_metadata :
  (exists r r',
      Unwrap Demo.externals Demo.wrapper_foo = Ok r
      /\ UnwrapInto Demo.externals Demo.wrapper_foo (Ptr (Demo.zero_of Demo.EntityConfig))
         = (Ptr r', Done)
      /\ labels_of r' = labels_of r
      /\ annotations_of r !! Demo.etag_key = Some (ETag Demo.wrapper_foo)
      /\ annotations_of r' !! Demo.etag_key = None)
  /\ (exists r,
        Unwrap Demo.externals Demo.wrapper_bare = Ok r /\ is_Some (Metadata r))
  /\ snd (UnwrapInto Demo.externals Demo.wrapper_bare (Ptr (Demo.zero_of Demo.EntityConfig)))
     = Panicked.
Proof.
  split; [|split].
  - eexists _, _. split; [vm_compute; reflexivity|].
    split; [vm_compute; reflexivity|].
    split; [vm_compute; reflexivity|].
    split; vm_compute; reflexivity.
  - eexists. split; [vm_compute; reflexivity|]. eauto.
  - vm_compute. reflexivity.
Qed.

(** ** Round trip *)

Lemma apply_builtin_opts (opts : list Option) (r : Resource) :
  Forall builtin opts ->
  forall w w', supported_pair w r -> apply_opts opts w r = Ok w' ->
    same_frame w w' /\ supported_pair w' r.
Proof.
  induction 1 as [|opt rest Hopt _ IH]; intros w w' Hw H; simpl in H.
  - injection H as <-. split; [repeat split|exact Hw].
  - destruct Hw as [Henc Hcomp].
    assert (forall w1, opt w r = (w1, None) -> same_frame w w1 /\ supported_pair w1 r)
      as Hstep.
    { intros w1 H1.
      destruct Hopt as [-> | [-> | [-> | [-> | ->]]]]; cbv beta delta [EncodeProtobuf
        EncodeJSON EncodeDefault CompressNone CompressSnappy] in H1.
      - destruct (isProtoMessage (rtype r)) eqn:Hp; simpl in H1; [|discriminate].
        injection H1 as <-. split; [repeat split|]. split; [right; auto|exact Hcomp].
      - injection H1 as <-. split; [repeat split|]. split; [left; reflexivity|exact Hcomp].
      - injection H1 as <-. split; [repeat split|]. split; [|exact Hcomp].
        destruct (isProtoMessage (rtype r)); simpl; auto.
      - injection H1 as <-. split; [repeat split|]. split; [exact Henc|left; reflexivity].
      - injection H1 as <-. split; [repeat split|]. split; [exact Henc|right; reflexivity]. }
    destruct (opt w r) as [w1 [err|]]; [discriminate|].
    destruct (Hstep w1 eq_refl) as [Hf1 Hs1].
    destruct (IH w1 w' Hs1 H) as [Hf2 Hs2]. split; [|exact Hs2].
    unfold same_frame in *. destruct Hf1 as (? & ? & ? & ? & ?).
    destruct Hf2 as (? & ? & ? & ? & ?). repeat split; congruence.
Qed.

Lemma Decompress_Compress (E : Externals) (c : Compression) (m : bytes) :
  (forall m, snappy_Decode E (snappy_Encode E m) = Ok m) ->
  c = Compression_none \/ c = Compression_snappy ->
  Decompress E c (Compress E c m) = Ok m.
Proof. intros Hs [-> | ->]; [reflexivity|]. apply Hs. Qed.

Lemma Decode_Encode (E : Externals) (e : Encoding) (m : bytes) (v z : Resource) :
  rtype z = rtype v ->
  (forall m, json_Marshal E v = Ok m -> json_Unmarshal E m z = (v, None)) ->
  (forall m, proto_Marshal E v = Ok m -> proto_Unmarshal E m z = (v, None)) ->
  e = Encoding_json \/ (e = Encoding_protobuf /\ isProtoMessage (rtype v) = true) ->
  Encode E e v = Ok m ->
  Decode E e m z = (v, None).
Proof.
  intros Ht Hj Hp [-> | [-> Hpm]]; unfold Encode, Decode; simpl.
  - apply Hj.
  - rewrite Ht, Hpm. apply Hp.
Qed.

Lemma without_storage_labels_insert (E : Externals) (l : gmap string string) (c u : string) :
  without_storage_labels E
    (<[SensuUpdatedAtKey E := u]> (<[SensuCreatedAtKey E := c]> l))
  = without_storage_labels E l.
Proof.
  apply map_eq. intros k. unfold without_storage_labels.
  rewrite !lookup_delete, !lookup_insert.
  repeat case_decide; congruence.
Qed.

(** C1. Let [r] be a v3 resource whose type the registry resolves to a fresh
    instance [z], with codecs that decode into [z] what they encoded from
    [r] and a snappy that undoes itself.  For every list of built-in options
    (so for every pair of encoding and compression) for which [wrap] returns
    a wrapper, which requires [r] to validate, [Unwrap] of that wrapper
    returns a resource equal to [r] up to the storage keys. *)
Theorem wrap_Unwrap_round_trip
  (E : Externals) (r : iface) (opts : list Option) (w : Wrapper) (z : Resource) :
  Forall builtin opts ->
  isV3Resource (rtype (underlying r)) = true ->
  rtype z = rtype (underlying r) ->
  (forall tm, GetTypeMeta w = Some tm -> Resolve E (APIVersion tm) (Type_ tm) = Ok z) ->
  (forall m, json_Marshal E (underlying r) = Ok m ->
             json_Unmarshal E m z = (underlying r, None)) ->
  (forall m, proto_Marshal E (underlying r) = Ok m ->
             proto_Unmarshal E m z = (underlying r, None)) ->
  (forall m, snappy_Decode E (snappy_Encode E m) = Ok m) ->
  wrap E r opts = Ok w ->
  validatable r = true /\ Validate E (underlying r) = None
  /\ exists r', Unwrap E w = Ok r' /\ equal_modulo_storage_keys E r' (underlying r).
Proof.
  intros Hopts Hv3 Hz Hres Hjson Hproto Hsnappy Hwrap.
  split.
  { unfold wrap in Hwrap. destruct (validatable r); [reflexivity|discriminate]. }
  split.
  { unfold wrap in Hwrap. destruct (validatable r); [|discriminate].
    destruct (Validate E (underlying r)); [discriminate|reflexivity]. }
  apply wrap_Ok_inv in Hwrap. unfold wrapWithoutValidation in Hwrap.
  rewrite apply_defaults in Hwrap.
  apply bind_Ok_inv in Hwrap as (w1 & Hw1 & Hwrap).
  apply bind_Ok_inv in Hwrap as (m & Hm & Hwrap).
  injection Hwrap as <-.
  apply (apply_builtin_opts opts (underlying r) Hopts) in Hw1 as [Hframe [Henc Hcomp]].
  2:{ split; [|right; reflexivity]. simpl.
      destruct (isProtoMessage (rtype (underlying r))); auto. }
  destruct Hframe as (Htm & Hc & Hu & Hd & He). simpl in Htm, Hc, Hu, Hd, He.
  simpl in Hres. rewrite Htm in Hres.
  unfold Unwrap, UnwrapRaw. simpl. rewrite Htm.
  rewrite (Hres _ eq_refl). simpl.
  rewrite (Decompress_Compress E _ m Hsnappy Hcomp).
  rewrite (Decode_Encode E _ m (underlying r) z Hz Hjson Hproto Henc Hm).
  simpl. rewrite Hv3. simpl. rewrite Hd. simpl.
  eexists. split; [reflexivity|].
  unfold equal_modulo_storage_keys, labels_of, annotations_of. simpl.
  destruct (underlying r) as [t [meta|] sp]; simpl; repeat split.
  - destruct (Labels meta); apply without_storage_labels_insert.
  - destruct (Annotations meta); by rewrite delete_insert_eq.
  - apply without_storage_labels_insert.
  - by rewrite delete_insert_eq.
Qed.

Lemma wrap_Unwrap_round_trip_witness :
  (wrap Demo.externals (Ptr Demo.entity_foo) [] = Ok Demo.wrapped_foo
   /\ exists r', Unwrap Demo.externals Demo.wrapped_foo = Ok r'
        /\ equal_modulo_storage_keys Demo.externals r' Demo.entity_foo)
  /\ (wrap Demo.externals (Ptr Demo.entity_foo) [EncodeJSON; CompressNone]
      = Ok Demo.wrapped_foo_json
      /\ exists r', Unwrap Demo.externals Demo.wrapped_foo_json = Ok r'
           /\ equal_modulo_storage_keys Demo.externals r' Demo.entity_foo).
Proof.
  assert (forall m : bytes,
            snappy_Decode Demo.externals (snappy_Encode Demo.externals m) = Ok m) as Hs.
  { intros m. reflexivity. }
  assert (forall m, json_Marshal Demo.externals Demo.entity_foo = Ok m ->
            json_Unmarshal Demo.externals m (Demo.zero_of Demo.EntityConfig)
            = (Demo.entity_foo, None)) as Hj.
  { intros m H. vm_compute in H. injection H as <-. vm_compute. reflexivity. }
  assert (forall m, proto_Marshal Demo.externals Demo.entity_foo = Ok m ->
            proto_Unmarshal Demo.externals m (Demo.zero_of Demo.EntityConfig)
            = (Demo.entity_foo, None)) as Hp.
  { intros m H. vm_compute in H. injection H as <-. vm_compute. reflexivity. }
  split; (split; [vm_compute; reflexivity|]).
  - apply (wrap_Unwrap_round_trip Demo.externals (Ptr Demo.entity_foo) []
             Demo.wrapped_foo (Demo.zero_of Demo.EntityConfig)).
    + constructor.
    + reflexivity.
    + reflexivity.
    + intros tm H. injection H as <-. reflexivity.
    + exact Hj.
    + exact Hp.
    + exact Hs.
    + vm_compute. reflexivity.
  - apply (wrap_Unwrap_round_trip Demo.externals (Ptr Demo.entity_foo)
             [EncodeJSON; CompressNone]
             Demo.wrapped_foo_json (Demo.zero_of Demo.EntityConfig)).
    + constructor; [unfold builtin; auto 10|].
      constructor; [unfold builtin; auto 10|]. constructor.
    + reflexivity.
    + reflexivity.
    + intros tm H. injection H as <-. reflexivity.
    + exact Hj.
    + exact Hp.
    + exact Hs.
    + vm_compute. reflexivity.
Defined.

(** ** Batch hydration into a caller's slice *)

Lemma UnwrapInto_elems_length (E : Externals) (zero : Resource) (l : List)
  (objs : list Resource) (slots : list Slot) :
  length (UnwrapInto_elems E zero l objs slots).1.2 = length slots.
Proof.
  revert objs slots. induction l as [|w l IH]; intros objs slots; simpl; [reflexivity|].
  destruct slots as [|[r|elt] rest]; [reflexivity| |].
  - destruct (UnwrapInto E w (Ptr r)) as [p [|err|]]; simpl; try reflexivity.
    specialize (IH objs rest).
    destruct (UnwrapInto_elems E zero l objs rest) as [[objs' rest'] st]. simpl in *.
    by rewrite IH.
  - destruct elt as [a|].
    + destruct (UnwrapInto E w (Ptr (default zero (objs !! a)))) as [p [|err|]];
        simpl; try reflexivity.
      specialize (IH (<[a := underlying p]> objs) rest).
      destruct (UnwrapInto_elems E zero l _ rest) as [[objs' rest'] st]. simpl in *.
      by rewrite IH.
    + destruct (UnwrapInto E w (Ptr (default zero ((objs ++ [zero])%list !! length objs))))
        as [p [|err|]]; simpl; try reflexivity.
      specialize (IH (<[length objs := underlying p]> (objs ++ [zero])%list) rest).
      destruct (UnwrapInto_elems E zero l _ rest) as [[objs' rest'] st]. simpl in *.
      by rewrite IH.
Qed.

(** When the loop ends without error, every wrapper has been unwrapped, with
    a nil result, into some object, and none of the slots it went through is
    left nil. *)
Lemma UnwrapInto_elems_Done (E : Externals) (zero : Resource) (l : List)
  (objs objs' : list Resource) (slots slots' : list Slot) :
  UnwrapInto_elems E zero l objs slots = ((objs', slots'), Done) ->
  forall i w, l !! i = Some w ->
    exists slot' target p,
      slots' !! i = Some slot' /\ slot' ≠ Pointer None
      /\ UnwrapInto E w (Ptr target) = (p, Done).
Proof.
  revert objs objs' slots slots'.
  induction l as [|w0 l IH]; intros objs objs' slots slots' H i w Hi.
  - destruct i; discriminate.
  - simpl in H. destruct slots as [|[r|elt] rest]; [discriminate| |].
    + destruct (UnwrapInto E w0 (Ptr r)) as [p [|err|]] eqn:Hp; try discriminate.
      destruct (UnwrapInto_elems E zero l objs rest) as [[objs1 rest'] st] eqn:Hrest.
      injection H as <- <- ->.
      destruct i as [|i]; simpl in Hi.
      * injection Hi as <-. eexists _, r, p. repeat split; [discriminate|exact Hp].
      * apply (IH _ _ _ _ Hrest i w Hi).
    + destruct elt as [a|].
      * destruct (UnwrapInto E w0 (Ptr (default zero (objs !! a)))) as [p [|err|]] eqn:Hp;
          try discriminate.
        destruct (UnwrapInto_elems E zero l _ rest) as [[objs1 rest'] st] eqn:Hrest.
        injection H as <- <- ->.
        destruct i as [|i]; simpl in Hi.
        -- injection Hi as <-. eexists _, _, p. repeat split; [discriminate|exact Hp].
        -- apply (IH _ _ _ _ Hrest i w Hi).
      * destruct (UnwrapInto E w0 (Ptr (default zero ((objs ++ [zero])%list !! length objs))))
          as [p [|err|]] eqn:Hp; try discriminate.
        destruct (UnwrapInto_elems E zero l _ rest) as [[objs1 rest'] st] eqn:Hrest.
        injection H as <- <- ->.
        destruct i as [|i]; simpl in Hi.
        -- injection Hi as <-. eexists _, _, p. repeat split; [discriminate|exact Hp].
        -- apply (IH _ _ _ _ Hrest i w Hi).
Qed.

Lemma slot_object_insert_ne (zero : Resource) (objs : list Resource) (a : nat)
  (r : Resource) (slots : list Slot) (slot : Slot) :
  slot ∈ slots -> a ∉ pointers slots ->
  slot_object zero (<[a := r]> objs) slot = slot_object zero objs slot.
Proof.
  intros Hin Ha. destruct slot as [r0|[b|]]; simpl; try reflexivity.
  rewrite list_lookup_insert_ne; [reflexivity|]. intros ->. apply Ha.
  clear Ha. induction slots as [|s slots IH]; [by apply elem_of_nil in Hin|].
  apply elem_of_cons in Hin as [<- | Hin]; simpl; [left|].
  destruct s as [?|[?|]]; [by apply IH|right; by apply IH|by apply IH].
Qed.

Lemma pointers_lt (objs : list Resource) (slots : list Slot) (slot : Slot) (b : nat) :
  (forall a, a ∈ pointers slots -> (a < length objs)%nat) ->
  slot ∈ slots -> slot = Pointer (Some b) -> (b < length objs)%nat.
Proof.
  intros Hwf Hin ->. apply Hwf. clear Hwf.
  induction slots as [|s slots IH]; [by apply elem_of_nil in Hin|].
  apply elem_of_cons in Hin as [<- | Hin]; simpl; [left|].
  destruct s as [?|[?|]]; [by apply IH|right; by apply IH|by apply IH].
Qed.

(** When the slots the loop goes through hold pairwise different pointers,
    and the loop ends without error, each of them ends up holding what
    [UnwrapInto] made of the element that was there, or of a new object if
    the slot was nil; objects that no such slot points to are untouched. *)
Lemma UnwrapInto_elems_separate (E : Externals) (zero : Resource) (l : List) :
  forall (objs objs' : list Resource) (slots slots' : list Slot),
    UnwrapInto_elems E zero l objs slots = ((objs', slots'), Done) ->
    separate_slots objs slots (length l) ->
    (length objs <= length objs')%nat
    /\ (forall b, (b < length objs)%nat -> b ∉ pointers (take (length l) slots) ->
          objs' !! b = objs !! b)
    /\ forall i w, l !! i = Some w ->
         exists slot p,
           slots !! i = Some slot
           /\ UnwrapInto E w (Ptr (slot_object zero objs slot)) = (p, Done)
           /\ slot_after objs objs' slot (slots' !! i) (underlying p).
Proof.
  induction l as [|w0 l IH]; intros objs objs' slots slots' H [Hnd Hwf].
  - simpl in H. injection H as <- <-. split; [lia|]. split; [reflexivity|].
    intros i w Hi. destruct i; discriminate.
  - simpl in H. destruct slots as [|[r|elt] rest]; [discriminate| |].
    + (* a value, unwrapped into in place *)
      destruct (UnwrapInto E w0 (Ptr r)) as [p [|err|]] eqn:Hp; try discriminate.
      destruct (UnwrapInto_elems E zero l objs rest) as [[objs1 rest'] st] eqn:Hrest.
      injection H as <- <- ->.
      destruct (IH _ _ _ _ Hrest (conj Hnd Hwf)) as (Hlen & Hframe & Hslots).
      split; [exact Hlen|]. split; [exact Hframe|].
      intros [|i] w Hi; simpl in Hi.
      * injection Hi as <-. exists (Value r), p. repeat split. exact Hp.
      * apply (Hslots i w Hi).
    + destruct elt as [a|].
      * (* a pointer to an object *)
        simpl in Hnd, Hwf. apply NoDup_cons in Hnd as [Ha Hnd].
        assert (a < length objs)%nat as Halt by (apply Hwf; left).
        destruct (UnwrapInto E w0 (Ptr (default zero (objs !! a)))) as [p [|err|]] eqn:Hp;
          try discriminate.
        destruct (UnwrapInto_elems E zero l _ rest) as [[objs1 rest'] st] eqn:Hrest.
        injection H as <- <- ->.
        destruct (IH _ _ _ _ Hrest) as (Hlen & Hframe & Hslots).
        { split; [exact Hnd|]. intros b Hb. rewrite length_insert.
          apply Hwf. by right. }
        rewrite length_insert in Hlen, Hframe.
        split; [exact Hlen|]. split.
        { intros b Hb Hnot. simpl in Hnot. apply not_elem_of_cons in Hnot as [Hne Hnot].
          rewrite (Hframe b Hb Hnot). by apply list_lookup_insert_ne. }
        intros [|i] w Hi; simpl in Hi.
        -- injection Hi as <-. exists (Pointer (Some a)), p.
           split; [reflexivity|]. split; [exact Hp|]. simpl. split; [reflexivity|].
           rewrite (Hframe a Halt Ha). by apply list_lookup_insert_eq.
        -- destruct (Hslots i w Hi) as (slot & q & Hs & Hq & Hafter).
           assert (slot ∈ take (length l) rest) as Hin.
           { apply list_elem_of_lookup. exists i. rewrite lookup_take_lt; [exact Hs|].
             apply lookup_lt_Some in Hi. exact Hi. }
           rewrite (slot_object_insert_ne zero objs a (underlying p) _ slot Hin Ha) in Hq.
           exists slot, q. split; [exact Hs|]. split; [exact Hq|].
           destruct slot as [r0|[b|]]; simpl in *; try exact Hafter.
           destruct Hafter as (b & Hb & Hafter). exists b. split; [|exact Hafter].
           rewrite ?length_insert, ?length_app in Hb. simpl in Hb. lia.
      * (* a nil pointer: a new object *)
        simpl in Hnd, Hwf.
        assert (length objs ∉ pointers (take (length l) rest)) as Hfresh.
        { intros Hin. apply Hwf in Hin. lia. }
        assert ((objs ++ [zero])%list !! length objs = Some zero) as Hnew.
        { rewrite lookup_app_r by lia. by rewrite Nat.sub_diag. }
        rewrite Hnew in H. simpl in H.
        destruct (UnwrapInto E w0 (Ptr zero)) as [p [|err|]] eqn:Hp; try discriminate.
        destruct (UnwrapInto_elems E zero l _ rest) as [[objs1 rest'] st] eqn:Hrest.
        injection H as <- <- ->.
        destruct (IH _ _ _ _ Hrest) as (Hlen & Hframe & Hslots).
        { split; [exact Hnd|]. intros b Hb. rewrite length_insert, length_app. simpl.
          apply Hwf in Hb. lia. }
        rewrite length_insert, length_app in Hlen, Hframe. simpl in Hlen, Hframe.
        split; [lia|]. split.
        { intros b Hb Hnot. rewrite (Hframe b ltac:(lia) Hnot).
          rewrite list_lookup_insert_ne by lia. by apply lookup_app_l. }
        intros [|i] w Hi; simpl in Hi.
        -- injection Hi as <-. exists (Pointer None), p.
           split; [reflexivity|]. split; [exact Hp|]. simpl.
           exists (length objs). split; [lia|]. split; [reflexivity|].
           rewrite (Hframe (length objs) ltac:(lia) Hfresh).
           apply list_lookup_insert_eq. rewrite length_app. simpl. lia.
        -- destruct (Hslots i w Hi) as (slot & q & Hs & Hq & Hafter).
           assert (slot ∈ take (length l) rest) as Hin.
           { apply list_elem_of_lookup. exists i. rewrite lookup_take_lt; [exact Hs|].
             apply lookup_lt_Some in Hi. exact Hi. }
           rewrite (slot_object_insert_ne zero _ _ (underlying p) _ slot Hin Hfresh) in Hq.
           assert (slot_object zero (objs ++ [zero])%list slot = slot_object zero objs slot)
             as Hsame.
           { destruct slot as [r0|[b|]]; simpl; try reflexivity.
             rewrite lookup_app_l; [reflexivity|].
             by apply (pointers_lt objs (take (length l) rest) (Pointer (Some b)) b Hwf). }
           rewrite Hsame in Hq.
           exists slot, q. split; [exact Hs|]. split; [exact Hq|].
           destruct slot as [r0|[b|]]; simpl in *; try exact Hafter.
           destruct Hafter as (b & Hb & Hafter). exists b. split; [|exact Hafter].
           rewrite ?length_insert, ?length_app in Hb. simpl in Hb. lia.
Qed.

Lemma List_UnwrapInto_slice (E : Externals) (l : List) (v : Slice) :
  l ≠ [] ->
  exists v' st,
    List_UnwrapInto E l (PointerToSlice v) = (PointerToSlice v', st)
    /\ slice_Len v' = Nat.max (slice_Cap v) (length l)
    /\ elemZero v' = elemZero v
    /\ UnwrapInto_elems E (elemZero v) l (objects v) (resized_slots v (length l))
       = ((objects v', elems v'), st).
Proof.
  intros Hl. unfold List_UnwrapInto, resized_slots.
  destruct l as [|w l]; [contradiction|]. cbn [length Nat.eqb].
  set (n := S (length l)).
  destruct (Nat.ltb_spec (slice_Cap v) n) as [Hlt|Hge].
  - assert ((slice_Len (MakeSlice v n) <? slice_Cap (MakeSlice v n))%nat = false) as ->.
    { apply Nat.ltb_ge. unfold slice_Len, slice_Cap. simpl. lia. }
    cbn [elemZero MakeSlice elems objects].
    pose proof (UnwrapInto_elems_length E (elemZero v) (w :: l) (objects v)
                  (replicate n (if elemIsPtr v then Pointer None
                                else Value (elemZero v)))) as Hlen.
    destruct (UnwrapInto_elems E (elemZero v) (w :: l) (objects v)
                (replicate n (if elemIsPtr v then Pointer None else Value (elemZero v))))
      as [[objs es] st].
    eexists _, st. split; [reflexivity|]. simpl in Hlen.
    unfold slice_Len. simpl. rewrite Hlen, length_replicate.
    repeat split. lia.
  - destruct (Nat.ltb_spec (slice_Len v) (slice_Cap v)) as [Hlt|Hfull].
    + cbn [elemZero SetLen_Cap elems objects].
      pose proof (UnwrapInto_elems_length E (elemZero v) (w :: l) (objects v)
                    (elems v ++ spare v)%list) as Hlen.
      destruct (UnwrapInto_elems E (elemZero v) (w :: l) (objects v) (elems v ++ spare v)%list)
        as [[objs es] st].
      eexists _, st. split; [reflexivity|]. simpl in Hlen.
      unfold slice_Len. simpl. rewrite Hlen, length_app.
      unfold slice_Cap in *. repeat split. lia.
    + assert (spare v = []) as Hsp.
      { unfold slice_Len, slice_Cap in Hfull.
        destruct (spare v); [reflexivity|simpl in Hfull; lia]. }
      rewrite Hsp, app_nil_r.
      pose proof (UnwrapInto_elems_length E (elemZero v) (w :: l) (objects v) (elems v))
        as Hlen.
      destruct (UnwrapInto_elems E (elemZero v) (w :: l) (objects v) (elems v))
        as [[objs es] st].
      eexists _, st. split; [reflexivity|]. simpl in Hlen.
      unfold slice_Len. simpl. rewrite Hlen.
      unfold slice_Cap in *. rewrite Hsp in *. simpl in *.
      repeat split. lia.
Qed.

(** C5 (as the code has it). For a list of [n > 0] wrappers and a pointer to
    a slice, [List.UnwrapInto] leaves a slice of length at least [n] and
    never shortens it; when the capacity of the slice is at most [n] the
    length is exactly [n], the slice being replaced by [n] zero elements
    when its capacity is below [n].  When the call returns nil, every
    wrapper has been unwrapped into an element and none of the first [n]
    slots is nil.  When moreover the first [n] slots share no object (they
    are values, nil pointers or pairwise different pointers), element [i] is
    what [UnwrapInto] of wrapper [i] made of the element found in slot [i], or
    of a newly allocated object where the slot held a nil pointer, and the
    objects that none of these slots points to are as they were. *)
Theorem List_UnwrapInto_resizes (E : Externals) (l : List) (v : Slice) :
  l ≠ [] ->
  exists v' st,
    List_UnwrapInto E l (PointerToSlice v) = (PointerToSlice v', st)
    /\ (length l <= slice_Len v')%nat
    /\ (slice_Len v <= slice_Len v')%nat
    /\ ((slice_Cap v <= length l)%nat -> slice_Len v' = length l)
    /\ (st = Done ->
        forall i w, l !! i = Some w ->
          exists slot' target p,
            elems v' !! i = Some slot' /\ slot' ≠ Pointer None
            /\ UnwrapInto E w (Ptr target) = (p, Done))
    /\ (st = Done ->
        separate_slots (objects v) (resized_slots v (length l)) (length l) ->
        (forall i w, l !! i = Some w ->
           exists slot p,
             resized_slots v (length l) !! i = Some slot
             /\ UnwrapInto E w (Ptr (slot_object (elemZero v) (objects v) slot))
                = (p, Done)
             /\ slot_after (objects v) (objects v') slot (elems v' !! i) (underlying p))
        /\ forall b, (b < length (objects v))%nat ->
             b ∉ pointers (take (length l) (resized_slots v (length l))) ->
             objects v' !! b = objects v !! b).
Proof.
  intros Hl.
  destruct (List_UnwrapInto_slice E l v Hl) as (v' & st & Hrun & Hlen & _ & Helems).
  exists v', st. split; [exact Hrun|].
  assert (slice_Len v <= slice_Cap v)%nat by (unfold slice_Len, slice_Cap; lia).
  split; [lia|]. split; [lia|]. split; [lia|]. split.
  - intros ->. by apply (UnwrapInto_elems_Done E (elemZero v) l _ (objects v') _ _ Helems).
  - intros -> Hsep.
    destruct (UnwrapInto_elems_separate E (elemZero v) l _ _ _ _ Helems Hsep)
      as (_ & Hframe & Hslots).
    split; [exact Hslots|exact Hframe].
Qed.

Lemma List_UnwrapInto_resizes_witness :
  (exists v',
      List_UnwrapInto Demo.externals [Demo.wrapper_foo; Demo.wrapper_relabelled]
        (PointerToSlice Demo.one_nil) = (PointerToSlice v', Done)
      /\ slice_Len v' = 2%nat
      /\ elems v' = [Pointer (Some 0%nat); Pointer (Some 1%nat)])
  /\ (exists v',
        List_UnwrapInto Demo.externals [Demo.wrapper_foo; Demo.wrapper_relabelled]
          (PointerToSlice Demo.three_entities) = (PointerToSlice v', Done)
        /\ elems v' !! 1%nat = Some (Pointer (Some 2%nat))
        /\ objects v' !! 1%nat = Some Demo.entity_relabelled).
Proof.
  split.
  - destruct (List_UnwrapInto_resizes Demo.externals
                [Demo.wrapper_foo; Demo.wrapper_relabelled] Demo.one_nil)
      as (v' & st & Hrun & _ & _ & Hlen & _); [discriminate|].
    assert (st = Done) as ->.
    { assert (snd (List_UnwrapInto Demo.externals
                     [Demo.wrapper_foo; Demo.wrapper_relabelled]
                     (PointerToSlice Demo.one_nil)) = Done) as Hst
        by (vm_compute; reflexivity).
      rewrite Hrun in Hst. exact Hst. }
    exists v'. split; [exact Hrun|]. split; [apply Hlen; vm_compute; lia|].
    vm_compute in Hrun. injection Hrun as <-. reflexivity.
  - destruct (List_UnwrapInto_resizes Demo.externals
                [Demo.wrapper_foo; Demo.wrapper_relabelled] Demo.three_entities)
      as (v' & st & Hrun & _ & _ & _ & _ & Hsep); [discriminate|].
    assert (st = Done) as ->.
    { assert (snd (List_UnwrapInto Demo.externals
                     [Demo.wrapper_foo; Demo.wrapper_relabelled]
                     (PointerToSlice Demo.three_entities)) = Done) as Hst
        by (vm_compute; reflexivity).
      rewrite Hrun in Hst. exact Hst. }
    destruct (Hsep eq_refl) as [Hslots Hframe].
    { split; simpl.
      - apply NoDup_singleton.
      - intros a Ha. apply list_elem_of_singleton in Ha. subst a. simpl. lia. }
    exists v'. split; [exact Hrun|]. split.
    + destruct (Hslots 1%nat Demo.wrapper_relabelled eq_refl)
        as (slot & p & Hslot & _ & Hafter).
      simpl in Hslot. injection Hslot as <-. simpl in Hafter.
      destruct Hafter as (a & Ha & Hs & _). rewrite Hs.
      assert (a < 3)%nat.
      { pose proof Hrun as Hrun'. vm_compute in Hrun'. injection Hrun' as <-.
        simpl in Hs. injection Hs as <-. lia. }
      assert (a = 2%nat) as -> by lia. reflexivity.
    + rewrite (Hframe 1%nat); [reflexivity|simpl; lia|].
      simpl. intros Hin. apply list_elem_of_singleton in Hin. discriminate.
Defined.

(** C5 as stated fails: given one wrapper and a slice of three elements,
    [List.UnwrapInto] returns nil and the slice still has three elements. *)
Lemma List_UnwrapInto_keeps_longer_slice :
  exists v',
    List_UnwrapInto Demo.externals [Demo.wrapper_foo] (PointerToSlice Demo.three_entities)
    = (PointerToSlice v', Done)
    /\ slice_Len v' = 3%nat
    /\ slice_Len v' ≠ length [Demo.wrapper_foo].
Proof.
  eexists. split; [vm_compute; reflexivity|]. split; [reflexivity|discriminate].
Qed.

(** A slice that holds one pointer twice: both wrappers are unwrapped into the
    one object, so after the call both elements are what the second wrapper
    gave. *)
Example List_UnwrapInto_shared_pointer :
  exists v',
    List_UnwrapInto Demo.externals [Demo.wrapper_foo; Demo.wrapper_relabelled]
      (PointerToSlice Demo.same_pointer_twice) = (PointerToSlice v', Done)
    /\ elems v' = [Pointer (Some 0%nat); Pointer (Some 0%nat)]
    /\ length (objects v') = 1%nat
    /\ (Name <$> (objects v' !! 0%nat ≫= Metadata)) = Some "bar".
Proof.
  eexists. split; [vm_compute; reflexivity|]. repeat split.
Qed.

(* ===================================================================== *)
(** * Properties of the PATCH handler *)
(* ===================================================================== *)

Section Patch.

Import Handlers HandlerProps.

Lemma PatchResource_rejects_content_type (E : Externals) (r : Request)
  (body : bytes) (err : error) :
  Body r = (body, None) ->
  switch_ContentType (Get (Header r) "Content-Type") body = inr err ->
  PatchResource E r = ({| Resource := None |}, Some err).
Proof. intros Hb Hs. unfold PatchResource. rewrite Hb, Hs. reflexivity. Qed.

Lemma PatchResource_reaches_validatePatch (E : Externals) (r : Request)
  (body : bytes) (patcher : Patcher) (namespace name : string) :
  Body r = (body, None) ->
  switch_ContentType (Get (Header r) "Content-Type") body = inl patcher ->
  precondition_headers_ok E r ->
  url_PathUnescape E (Get (Vars r) "namespace") = (namespace, None) ->
  url_PathUnescape E (Get (Vars r) "id") = (name, None) ->
  forall err, validatePatch E body (Vars r) = Some err ->
    PatchResource E r
    = ({| Resource := None |}, Some (actions_NewError InvalidArgument err)).
Proof.
  intros Hb Hs [Him Hinm] Hns Hid err Hv. unfold PatchResource.
  rewrite Hb, Hs, Hid, Hns, Hv.
  destruct Him as [-> | Him], Hinm as [-> | Hinm]; simpl.
  - reflexivity.
  - destruct (ReadIfNoneMatch E _) as [v [e|]]; [discriminate|].
    destruct (negb _); reflexivity.
  - destruct (ReadIfMatch E _) as [v [e|]]; [discriminate|].
    destruct (negb _); reflexivity.
  - destruct (ReadIfMatch E _) as [v [e|]]; [discriminate|].
    destruct (ReadIfNoneMatch E _) as [v' [e|]]; [discriminate|].
    destruct (negb _); destruct (negb _); reflexivity.
Qed.

Lemma PatchResource_patches (E : Externals) (r : Request)
  (body : bytes) (patcher : Patcher) (namespace name : string) :
  Body r = (body, None) ->
  switch_ContentType (Get (Header r) "Content-Type") body = inl patcher ->
  Get (Header r) ifMatchHeader = "" ->
  Get (Header r) ifNoneMatchHeader = "" ->
  url_PathUnescape E (Get (Vars r) "namespace") = (namespace, None) ->
  url_PathUnescape E (Get (Vars r) "id") = (name, None) ->
  validatePatch E body (Vars r) = None ->
  PatchResource E r
  = ({| Resource := (patchV3Resource E (Context_ r) name namespace patcher).1 |},
     (patchV3Resource E (Context_ r) name namespace patcher).2).
Proof.
  intros Hb Hs Him Hinm Hns Hid Hv. unfold PatchResource.
  rewrite Hb, Hs, Him, Hinm, Hid, Hns, Hv. simpl.
  destruct (patchV3Resource E (Context_ r) name namespace patcher). reflexivity.
Qed.

(** C8. A Content-Type of application/merge-patch+json, or no Content-Type
    header, makes the handler patch with [patch.Merge] over the body;
    application/json-patch+json makes [PatchResource] return an
    InvalidArgument error whose text says that JSON Patch is not supported
    yet; any other value makes it return an InvalidArgument error that names
    the value. *)
Theorem Content_Type_selects_patcher (E : Externals) (r : Request) (body : bytes) :
  Body r = (body, None) ->
  ((Header r !! "Content-Type" = None
    \/ Header r !! "Content-Type" = Some mergePatchContentType) ->
   switch_ContentType (Get (Header r) "Content-Type") body = inl (patch_Merge body)
   /\ forall namespace name,
        Get (Header r) ifMatchHeader = "" ->
        Get (Header r) ifNoneMatchHeader = "" ->
        url_PathUnescape E (Get (Vars r) "namespace") = (namespace, None) ->
        url_PathUnescape E (Get (Vars r) "id") = (name, None) ->
        validatePatch E body (Vars r) = None ->
        PatchResource E r
        = ({| Resource :=
                (patchV3Resource E (Context_ r) name namespace (patch_Merge body)).1 |},
           (patchV3Resource E (Context_ r) name namespace (patch_Merge body)).2))
  /\ (Header r !! "Content-Type" = Some jsonPatchContentType ->
      PatchResource E r
      = ({| Resource := None |},
         Some (actions_Error InvalidArgument
                 (mkError errorString
                    "JSON Patch is not supported yet. Allowed values: application/merge-patch+json"))))
  /\ (forall contentType,
        Header r !! "Content-Type" = Some contentType ->
        contentType ≠ mergePatchContentType -> contentType ≠ "" ->
        contentType ≠ jsonPatchContentType ->
        PatchResource E r
        = ({| Resource := None |},
           Some (actions_Error InvalidArgument
                   (mkError errorString
                      ("invalid Content-Type header: " ++ contentType
                       ++ ".  Allowed values: application/merge-patch+json"))))).
Proof.
  intros Hb. repeat apply conj.
  - intros Hh.
    assert (switch_ContentType (Get (Header r) "Content-Type") body
            = inl (patch_Merge body)) as Hs.
    { unfold Get. destruct Hh as [-> | ->]; reflexivity. }
    split; [exact Hs|]. intros namespace name Him Hinm Hns Hid Hv.
    by apply (PatchResource_patches E r body).
  - intros Hh. apply (PatchResource_rejects_content_type E r body); [exact Hb|].
    unfold Get. rewrite Hh. reflexivity.
  - intros contentType Hh Hm He Hj.
    apply (PatchResource_rejects_content_type E r body); [exact Hb|].
    unfold Get. rewrite Hh. simpl. unfold switch_ContentType.
    destruct (decide (contentType = mergePatchContentType \/ contentType = ""))
      as [[?|?]|_]; [contradiction..|].
    destruct (decide (contentType = jsonPatchContentType)); [contradiction|].
    reflexivity.
Qed.

Lemma Content_Type_selects_patcher_witness :
  switch_ContentType (Get (Header (DemoHandlers.request None DemoHandlers.body_empty))
                        "Content-Type") DemoHandlers.body_empty
  = inl (patch_Merge DemoHandlers.body_empty)
  /\ PatchResource DemoHandlers.externals
       (DemoHandlers.request (Some mergePatchContentType) DemoHandlers.body_empty)
     = ({| Resource := None |}, None)
  /\ PatchResource DemoHandlers.externals
       (DemoHandlers.request (Some jsonPatchContentType) DemoHandlers.body_empty)
     = ({| Resource := None |},
        Some (actions_Error InvalidArgument
                (mkError errorString
                   "JSON Patch is not supported yet. Allowed values: application/merge-patch+json")))
  /\ PatchResource DemoHandlers.externals
       (DemoHandlers.request (Some "text/plain") DemoHandlers.body_empty)
     = ({| Resource := None |},
        Some (actions_Error InvalidArgument
                (mkError errorString
                   "invalid Content-Type header: text/plain.  Allowed values: application/merge-patch+json"))).
Proof.
  split; [|split; [|split]].
  - exact (proj1 (proj1 (Content_Type_selects_patcher DemoHandlers.externals
                           (DemoHandlers.request None DemoHandlers.body_empty)
                           DemoHandlers.body_empty eq_refl)
                    (or_introl eq_refl))).
  - apply (proj2 (proj1 (Content_Type_selects_patcher DemoHandlers.externals
                           (DemoHandlers.request (Some mergePatchContentType)
                              DemoHandlers.body_empty)
                           DemoHandlers.body_empty eq_refl)
                    (or_intror eq_refl)) "default" "foo"); reflexivity.
  - apply (proj1 (proj2 (Content_Type_selects_patcher DemoHandlers.externals
                    (DemoHandlers.request (Some jsonPatchContentType) DemoHandlers.body_empty)
                    DemoHandlers.body_empty eq_refl))).
    reflexivity.
  - apply (proj2 (proj2 (Content_Type_selects_patcher DemoHandlers.externals
                    (DemoHandlers.request (Some "text/plain") DemoHandlers.body_empty)
                    DemoHandlers.body_empty eq_refl)) "text/plain");
      [reflexivity | discriminate..].
Defined.

Lemma validatePatch_result (E : Externals) (data : bytes) (vars : gmap string string)
  (b : body) (namespace name : string) :
  json_Unmarshal E data {| Metadata := None |} = (b, None) ->
  url_PathUnescape E (Get vars "namespace") = (namespace, None) ->
  url_PathUnescape E (Get vars "id") = (name, None) ->
  (changes_identity b namespace name ->
   exists err, validatePatch E data vars = Some err)
  /\ (keeps_identity b namespace name -> validatePatch E data vars = None).
Proof.
  intros Hj Hns Hid. unfold validatePatch. rewrite Hj.
  split.
  - intros (md & -> & Hch). rewrite Hns, Hid.
    destruct (String.eqb_spec (Wrap.Namespace md) "") as [Hn0|Hn0];
      destruct (String.eqb_spec (Wrap.Namespace md) namespace) as [Hn1|Hn1];
      destruct (String.eqb_spec (Wrap.Name md) "") as [Hm0|Hm0];
      destruct (String.eqb_spec (Wrap.Name md) name) as [Hm1|Hm1];
      simpl; eauto; exfalso; destruct Hch as [[? ?]|[? ?]]; contradiction.
  - intros [-> | (md & -> & Hn & Hm)]; [reflexivity|]. rewrite Hns, Hid.
    destruct (String.eqb_spec (Wrap.Namespace md) "") as [Hn0|Hn0];
      destruct (String.eqb_spec (Wrap.Namespace md) namespace) as [Hn1|Hn1];
      destruct (String.eqb_spec (Wrap.Name md) "") as [Hm0|Hm0];
      destruct (String.eqb_spec (Wrap.Name md) name) as [Hm1|Hm1];
      simpl; try reflexivity; exfalso;
      destruct Hn as [?|?]; destruct Hm as [?|?]; contradiction.
Qed.

(** C2. Take a PATCH request that reaches the identity check, with a body
    that [json.Unmarshal] accepts and route variables that unescape to
    [namespace] and [name].  If the metadata of the body sets the namespace
    or the name to a non-empty value other than the one of the route,
    [validatePatch] returns an error and [PatchResource] returns it as
    InvalidArgument; if the body has no metadata block, or its namespace and
    name are each empty or equal to the one of the route, [validatePatch]
    returns nil. *)
Theorem patch_cannot_change_identity (E : Externals) (r : Request) (data : bytes)
  (patcher : Patcher) (b : body) (namespace name : string) :
  Body r = (data, None) ->
  switch_ContentType (Get (Header r) "Content-Type") data = inl patcher ->
  precondition_headers_ok E r ->
  json_Unmarshal E data {| Metadata := None |} = (b, None) ->
  url_PathUnescape E (Get (Vars r) "namespace") = (namespace, None) ->
  url_PathUnescape E (Get (Vars r) "id") = (name, None) ->
  (changes_identity b namespace name ->
   exists err,
     validatePatch E data (Vars r) = Some err
     /\ PatchResource E r
        = ({| Resource := None |}, Some (actions_Error InvalidArgument err)))
  /\ (keeps_identity b namespace name -> validatePatch E data (Vars r) = None).
Proof.
  intros Hb Hs Hpre Hj Hns Hid.
  destruct (validatePatch_result E data (Vars r) b namespace name Hj Hns Hid)
    as [Hch Hkeep].
  split; [|exact Hkeep].
  intros Hc. destruct (Hch Hc) as [err Herr]. exists err. split; [exact Herr|].
  by apply (PatchResource_reaches_validatePatch E r data patcher namespace name).
Qed.

Lemma patch_cannot_change_identity_witness :
  (exists err,
      validatePatch DemoHandlers.externals DemoHandlers.body_other_namespace
        (Vars (DemoHandlers.request None DemoHandlers.body_other_namespace)) = Some err
      /\ PatchResource DemoHandlers.externals
           (DemoHandlers.request None DemoHandlers.body_other_namespace)
         = ({| Resource := None |}, Some (actions_Error InvalidArgument err)))
  /\ validatePatch DemoHandlers.externals DemoHandlers.body_empty
       (Vars (DemoHandlers.request None DemoHandlers.body_empty)) = None
  /\ validatePatch DemoHandlers.externals DemoHandlers.body_same_identity
       (Vars (DemoHandlers.request None DemoHandlers.body_same_identity)) = None.
Proof.
  split; [|split].
  - apply (proj1 (patch_cannot_change_identity DemoHandlers.externals
                    (DemoHandlers.request None DemoHandlers.body_other_namespace)
                    DemoHandlers.body_other_namespace
                    (patch_Merge DemoHandlers.body_other_namespace)
                    {| Metadata := Some (DemoHandlers.identity "other" "") |}
                    "default" "foo" eq_refl eq_refl
                    (conj (or_introl eq_refl) (or_introl eq_refl))
                    eq_refl eq_refl eq_refl)).
    eexists. split; [reflexivity|]. left. split; discriminate.
  - apply (proj2 (patch_cannot_change_identity DemoHandlers.externals
                    (DemoHandlers.request None DemoHandlers.body_empty)
                    DemoHandlers.body_empty
                    (patch_Merge DemoHandlers.body_empty)
                    {| Metadata := None |}
                    "default" "foo" eq_refl eq_refl
                    (conj (or_introl eq_refl) (or_introl eq_refl))
                    eq_refl eq_refl eq_refl)).
    left. reflexivity.
  - apply (proj2 (patch_cannot_change_identity DemoHandlers.externals
                    (DemoHandlers.request None DemoHandlers.body_same_identity)
                    DemoHandlers.body_same_identity
                    (patch_Merge DemoHandlers.body_same_identity)
                    {| Metadata := Some (DemoHandlers.identity "default" "foo") |}
                    "default" "foo" eq_refl eq_refl
                    (conj (or_introl eq_refl) (or_introl eq_refl))
                    eq_refl eq_refl eq_refl)).
    right. eexists. split; [reflexivity|]. split; right; reflexivity.
Defined.

End Patch.

(* ===================================================================== *)
(** * Further properties of package wrap *)
(* ===================================================================== *)

Import OptionKinds.

(** ** Enum tables, codecs, compression *)

(** X1. The name tables and the value tables are inverse to each other: a tag
    has a name exactly when that name has the tag as its value, for encodings
    and for compressions. *)
Theorem name_value_tables_inverse (x : Z) (s : string) :
  (Encoding_name !! x = Some s <-> Encoding_value !! s = Some x)
  /\ (Compression_name !! x = Some s <-> Compression_value !! s = Some x).
Proof.
  unfold Encoding_name, Encoding_value, Compression_name, Compression_value.
  rewrite !lookup_insert, !lookup_empty.
  split; split; intros H; repeat case_decide; simplify_eq; try reflexivity;
    try congruence.
Qed.

(** X2. With an encoding tag that is neither json nor protobuf, or with the
    protobuf tag on a value that is not a [proto.Message], [Encode] fails and
    [Decode] fails and leaves its target as it was. *)
Theorem codecs_reject_unsupported
  (E : Externals) (e : Encoding) (m : bytes) (v : Resource) :
  e ≠ Encoding_json ->
  e ≠ Encoding_protobuf \/ isProtoMessage (rtype v) = false ->
  exists err,
    Encode E e v = Err err
    /\ exists err', Decode E e m v = (v, Some err')
    /\ (e ≠ Encoding_protobuf -> err = ErrInvalidEncoding "" /\ err' = ErrInvalidEncoding "")
    /\ (e = Encoding_protobuf ->
        err = ErrProtobufEncodingRequested (rtype v)
        /\ err' = ErrProtobufDecodingRequested (rtype v)).
Proof.
  intros Hj Hp. unfold Encode, Decode.
  destruct (Z.eqb_spec e Encoding_json) as [|_]; [contradiction|].
  destruct (Z.eqb_spec e Encoding_protobuf) as [->|Hne].
  - destruct Hp as [Hp|Hp]; [contradiction|]. rewrite Hp.
    eexists. split; [reflexivity|]. eexists. split; [reflexivity|].
    split; [intros []; reflexivity|auto].
  - assert (Encoding_String e = "") as ->.
    { unfold Encoding_String, Encoding_name, Encoding_json, Encoding_protobuf in *.
      rewrite lookup_insert_ne by congruence.
      rewrite lookup_insert_ne by congruence. reflexivity. }
    eexists. split; [reflexivity|]. eexists. split; [reflexivity|].
    split; [auto|intros ?; contradiction].
Qed.

Lemma codecs_reject_unsupported_witness :
  (exists err, Encode Demo.externals 5 Demo.entity_foo = Err err)
  /\ exists err', Decode Demo.externals Encoding_protobuf [] Demo.note_hello
                  = (Demo.note_hello, Some err').
Proof.
  split.
  - destruct (codecs_reject_unsupported Demo.externals 5 [] Demo.entity_foo)
      as (err & He & _); [discriminate | left; discriminate |].
    exists err. exact He.
  - destruct (codecs_reject_unsupported Demo.externals Encoding_protobuf []
                Demo.note_hello) as (err & _ & err' & Hd & _);
      [discriminate | right; reflexivity |].
    exists err'. exact Hd.
Defined.

(** X3. When snappy undoes itself, [Decompress] undoes [Compress] for the
    tags none and snappy; for every other tag [Compress] hands the bytes
    through but [Decompress] of them fails. *)
Theorem Decompress_undoes_Compress (E : Externals) (c : Compression) (m : bytes) :
  (forall m, snappy_Decode E (snappy_Encode E m) = Ok m) ->
  Decompress E c (Compress E c m)
  = if decide (c = Compression_none \/ c = Compression_snappy) then Ok m
    else Err (ErrInvalidCompression "").
Proof.
  intros Hs. case_decide as Hc.
  - by apply Decompress_Compress.
  - rewrite Compress_not_snappy by tauto.
    unfold Decompress.
    destruct (Z.eqb_spec c Compression_none); [tauto|].
    destruct (Z.eqb_spec c Compression_snappy); [tauto|].
    by rewrite Compression_String_unknown.
Qed.

Lemma Decompress_undoes_Compress_witness :
  Decompress Demo.externals Compression_snappy
    (Compress Demo.externals Compression_snappy (list_byte_of_string "abc"))
  = Ok (list_byte_of_string "abc")
  /\ Decompress Demo.externals 9 (Compress Demo.externals 9 (list_byte_of_string "abc"))
     = Err (ErrInvalidCompression "").
Proof.
  split.
  - apply (Decompress_undoes_Compress Demo.externals Compression_snappy
             (list_byte_of_string "abc")). intros m. reflexivity.
  - apply (Decompress_undoes_Compress Demo.externals 9 (list_byte_of_string "abc")).
    intros m. reflexivity.
Defined.

(** ** Options *)

(** X4. An encoding option and a compression option can be given in either
    order: the option loop, and so [wrapWithoutValidation], gives the same
    result. *)
Theorem encoding_and_compression_options_commute
  (E : Externals) (e c : Option) (w : Wrapper) (r : iface) :
  encoding_option e -> compression_option c ->
  apply_opts [e; c] w (underlying r) = apply_opts [c; e] w (underlying r)
  /\ wrapWithoutValidation E r [e; c] = wrapWithoutValidation E r [c; e].
Proof.
  intros He Hc.
  assert (forall w0, apply_opts [e; c] w0 (underlying r)
                     = apply_opts [c; e] w0 (underlying r)) as Hcomm.
  { intros w0.
    destruct He as [-> | [-> | ->]]; destruct Hc as [-> | ->]; simpl;
      unfold EncodeProtobuf, EncodeJSON, EncodeDefault, CompressNone, CompressSnappy;
      destruct (isProtoMessage (rtype (underlying r))); reflexivity. }
  split; [apply Hcomm|].
  unfold wrapWithoutValidation. rewrite !apply_defaults, Hcomm. reflexivity.
Qed.

Lemma encoding_and_compression_options_commute_witness :
  wrapWithoutValidation Demo.externals (Ptr Demo.entity_foo) [EncodeJSON; CompressNone]
  = wrapWithoutValidation Demo.externals (Ptr Demo.entity_foo) [CompressNone; EncodeJSON].
Proof.
  apply (proj2 (encoding_and_compression_options_commute Demo.externals
                  EncodeJSON CompressNone
                  (new_Wrapper Demo.EntityConfig_TypeMeta) (Ptr Demo.entity_foo)
                  (or_intror (or_introl eq_refl)) (or_introl eq_refl))).
Defined.

Lemma apply_builtin_opts_frame (opts : list Option) (r : Resource) :
  Forall builtin opts ->
  forall w w', apply_opts opts w r = Ok w' -> same_frame w w'.
Proof.
  induction 1 as [|opt rest Hopt _ IH]; intros w w' H; simpl in H.
  - injection H as <-. repeat split.
  - destruct (opt w r) as [w2 [err|]] eqn:Hopt2; [discriminate|].
    assert (same_frame w w2) as Hs.
    { destruct Hopt as [-> | [-> | [-> | [-> | ->]]]];
        cbv beta delta [EncodeProtobuf EncodeJSON EncodeDefault CompressNone
                        CompressSnappy] in Hopt2;
        try (destruct (isProtoMessage (rtype r)); simpl in Hopt2; try discriminate);
        injection Hopt2 as <-; repeat split. }
    specialize (IH w2 w' H).
    unfold same_frame in *. destruct Hs as (? & ? & ? & ? & ?).
    destruct IH as (? & ? & ? & ? & ?). repeat split; congruence.
Qed.

(** X5. After a list of built-in options, a last encoding option alone
    decides the encoding of the wrapper, and leaves the compression as the
    options before it set it. *)
Theorem last_encoding_option_wins
  (opts : list Option) (o : Option) (w w1 w' : Wrapper) (r : Resource) :
  Forall builtin opts -> encoding_option o ->
  apply_opts opts w r = Ok w1 ->
  apply_opts (opts ++ [o]) w r = Ok w' ->
  GetEncoding w' = GetEncoding (o w r).1
  /\ GetCompression w' = GetCompression w1
  /\ same_frame w w'.
Proof.
  intros Hopts Ho H1 H. rewrite apply_opts_app, H1 in H. simpl in H.
  pose proof (apply_builtin_opts_frame opts r Hopts w w1 H1) as Hf1.
  destruct Ho as [-> | [-> | ->]];
    cbv beta delta [EncodeProtobuf EncodeJSON EncodeDefault] in H |- *;
    destruct (isProtoMessage (rtype r)); simpl in H |- *; try discriminate;
    injection H as <-; simpl; repeat split; apply Hf1.
Qed.

Lemma last_encoding_option_wins_witness :
  exists w',
    apply_opts ([EncodeProtobuf; CompressNone] ++ [EncodeJSON])
      (new_Wrapper Demo.EntityConfig_TypeMeta) Demo.entity_foo = Ok w'
    /\ GetEncoding w' = Encoding_json
    /\ GetCompression w' = Compression_none.
Proof.
  eexists. split; [reflexivity|].
  destruct (last_encoding_option_wins [EncodeProtobuf; CompressNone] EncodeJSON
              (new_Wrapper Demo.EntityConfig_TypeMeta)
              (set_Compression
                 (set_Encoding (new_Wrapper Demo.EntityConfig_TypeMeta) Encoding_protobuf)
                 Compression_none)
              (set_Encoding
                 (set_Compression
                    (set_Encoding (new_Wrapper Demo.EntityConfig_TypeMeta)
                       Encoding_protobuf)
                    Compression_none) Encoding_json)
              Demo.entity_foo) as (He & Hc & _).
  - constructor; [unfold builtin; auto 10|].
    constructor; [unfold builtin; auto 10|]. constructor.
  - right. left. reflexivity.
  - reflexivity.
  - reflexivity.
  - split; [exact He|exact Hc].
Defined.

(** X6. A wrapper that [wrapWithoutValidation] returns for built-in options
    carries the type identity of the value (its own [GetTypeMeta] if it has
    one, else its type name and the API version of its package), zero
    timestamps and an empty ETag, one of the supported encoding and
    compression pairs, and as value the compressed encoding of the value. *)
Theorem wrapWithoutValidation_envelope
  (E : Externals) (r : iface) (opts : list Option) (w : Wrapper) :
  Forall builtin opts ->
  wrapWithoutValidation E r opts = Ok w ->
  GetTypeMeta w
  = Some (if hasGetTypeMeta (rtype (underlying r))
          then tmGetter_GetTypeMeta E (underlying r)
          else {| Type_ := typ_Name (rtype (underlying r));
                  APIVersion := ApiVersion E (typ_PkgPath (rtype (underlying r))) |})
  /\ CreatedAt w = zero_Time /\ UpdatedAt w = zero_Time /\ DeletedAt w = zero_Time
  /\ ETag w = ""
  /\ supported_pair w (underlying r)
  /\ exists message,
       Encode E (GetEncoding w) (underlying r) = Ok message
       /\ GetValue w = Compress E (GetCompression w) message.
Proof.
  intros Hopts H. unfold wrapWithoutValidation in H. rewrite apply_defaults in H.
  apply bind_Ok_inv in H as (w1 & Hw1 & H).
  apply bind_Ok_inv in H as (m & Hm & H). injection H as <-.
  apply (apply_builtin_opts opts (underlying r) Hopts) in Hw1 as [Hframe Hpair].
  2:{ split; [|right; reflexivity]. simpl.
      destruct (isProtoMessage (rtype (underlying r))); auto. }
  destruct Hframe as (Htm & Hc & Hu & Hd & He). simpl in *.
  repeat split; try assumption; try apply Hpair.
  exists m. split; [exact Hm|reflexivity].
Qed.

Lemma wrapWithoutValidation_envelope_witness :
  GetTypeMeta Demo.wrapped_foo = Some Demo.EntityConfig_TypeMeta
  /\ ETag Demo.wrapped_foo = "".
Proof.
  destruct (wrapWithoutValidation_envelope Demo.externals (Ptr Demo.entity_foo) []
              Demo.wrapped_foo) as (Htm & _ & _ & _ & He & _).
  - constructor.
  - vm_compute. reflexivity.
  - split; [exact Htm|exact He].
Defined.

(** ** Unwrapping *)

(** X7. [Unwrap] hands on the error of the type registry unchanged, reports
    a failed decompression as an unwrapping error that names the resolved
    type (with a compression tag outside the enum as a case of it), reports a
    decoding error unchanged, and refuses a resolved value that is not a v3
    resource. *)
Theorem Unwrap_error_cases (E : Externals) (w : Wrapper) (tm : corev2_TypeMeta) :
  GetTypeMeta w = Some tm ->
  (forall err, Resolve E (APIVersion tm) (Type_ tm) = Err err -> Unwrap E w = Err err)
  /\ (forall z err,
        Resolve E (APIVersion tm) (Type_ tm) = Ok z ->
        Decompress E (GetCompression w) (GetValue w) = Err err ->
        Unwrap E w = Err (ErrUnwrapping (rtype z) err))
  /\ (forall z,
        Resolve E (APIVersion tm) (Type_ tm) = Ok z ->
        GetCompression w ≠ Compression_none -> GetCompression w ≠ Compression_snappy ->
        Unwrap E w = Err (ErrUnwrapping (rtype z) (ErrInvalidCompression "")))
  /\ (forall z message err,
        Resolve E (APIVersion tm) (Type_ tm) = Ok z ->
        Decompress E (GetCompression w) (GetValue w) = Ok message ->
        (Decode E (GetEncoding w) message z).2 = Some err ->
        Unwrap E w = Err err)
  /\ (forall r0, UnwrapRaw E w = Ok r0 -> isV3Resource (rtype r0) = false ->
        Unwrap E w = Err ErrOnlyV3Resources).
Proof.
  intros Htm. unfold Unwrap, UnwrapRaw. rewrite Htm. repeat apply conj.
  - intros err ->. reflexivity.
  - intros z err -> ->. reflexivity.
  - intros z -> H0 H1. simpl. unfold Decompress.
    destruct (Z.eqb_spec (GetCompression w) Compression_none); [contradiction|].
    destruct (Z.eqb_spec (GetCompression w) Compression_snappy); [contradiction|].
    by rewrite Compression_String_unknown.
  - intros z message err -> -> Hd. simpl.
    destruct (Decode E (GetEncoding w) message z) as [r0 [e|]]; simpl in Hd;
      [|discriminate]. by injection Hd as ->.
  - intros r0 -> Hv3. simpl. rewrite Hv3. reflexivity.
Qed.

Lemma Unwrap_error_cases_witness :
  Unwrap Demo.externals
    {| GetTypeMeta := Some {| Type_ := "Silenced"; APIVersion := "core/v2" |};
       GetEncoding := Encoding_json; GetCompression := Compression_none;
       GetValue := []; CreatedAt := zero_Time; UpdatedAt := zero_Time;
       DeletedAt := zero_Time; ETag := "" |}
  = Err (ExternalError "type could not be found")
  /\ Unwrap Demo.externals (set_Compression Demo.wrapper_foo 4)
     = Err (ErrUnwrapping Demo.EntityConfig (ErrInvalidCompression "")).
Proof.
  split.
  - apply (proj1 (Unwrap_error_cases Demo.externals
                    {| GetTypeMeta := Some {| Type_ := "Silenced"; APIVersion := "core/v2" |};
                       GetEncoding := Encoding_json; GetCompression := Compression_none;
                       GetValue := []; CreatedAt := zero_Time; UpdatedAt := zero_Time;
                       DeletedAt := zero_Time; ETag := "" |}
                    {| Type_ := "Silenced"; APIVersion := "core/v2" |} eq_refl)).
    reflexivity.
  - apply (proj1 (proj2 (proj2 (Unwrap_error_cases Demo.externals
                                  (set_Compression Demo.wrapper_foo 4)
                                  Demo.EntityConfig_TypeMeta eq_refl)))
             (Demo.zero_of Demo.EntityConfig)); [reflexivity | discriminate..].
Defined.

(** X8. Whenever [UnwrapRaw] returns a v3 resource, [Unwrap] returns a
    resource too, and it is the same apart from the storage keys: same type,
    same fields, same name, namespace and creator, and every label or
    annotation under another key is as decoded. *)
Theorem Unwrap_keeps_the_payload (E : Externals) (w : Wrapper) (r0 : Resource) :
  UnwrapRaw E w = Ok r0 ->
  isV3Resource (rtype r0) = true ->
  exists r,
    Unwrap E w = Ok r
    /\ rtype r = rtype r0 /\ Spec r = Spec r0
    /\ Name (default new_ObjectMeta (Metadata r))
       = Name (default new_ObjectMeta (Metadata r0))
    /\ Namespace (default new_ObjectMeta (Metadata r))
       = Namespace (default new_ObjectMeta (Metadata r0))
    /\ CreatedBy (default new_ObjectMeta (Metadata r))
       = CreatedBy (default new_ObjectMeta (Metadata r0))
    /\ (forall k, k ≠ SensuCreatedAtKey E -> k ≠ SensuUpdatedAtKey E ->
                  k ≠ SensuDeletedAtKey E ->
                  labels_of r !! k = labels_of r0 !! k)
    /\ (forall k, k ≠ SensuETagKey E -> annotations_of r !! k = annotations_of r0 !! k).
Proof.
  intros Hraw Hv3. unfold Unwrap. rewrite Hraw. simpl. rewrite Hv3. simpl.
  eexists. split; [reflexivity|]. unfold labels_of, annotations_of. simpl.
  split; [reflexivity|]. split; [reflexivity|].
  split; [destruct (Metadata r0); reflexivity|].
  split; [destruct (Metadata r0); reflexivity|].
  split; [destruct (Metadata r0); reflexivity|].
  split.
  - intros k Hc Hu Hd.
    destruct (IsZero (DeletedAt w)); simpl;
      repeat (rewrite lookup_insert_ne by congruence);
      destruct (Metadata r0) as [md|]; reflexivity.
  - intros k He. rewrite lookup_insert_ne by congruence.
    destruct (Metadata r0) as [md|]; reflexivity.
Qed.

Lemma Unwrap_keeps_the_payload_witness :
  exists r,
    Unwrap Demo.externals Demo.wrapper_foo = Ok r
    /\ labels_of r !! "region" = Some "eu"
    /\ Name (default new_ObjectMeta (Metadata r)) = "foo".
Proof.
  destruct (Unwrap_keeps_the_payload Demo.externals Demo.wrapper_foo Demo.entity_foo)
    as (r & Hr & _ & _ & Hn & _ & _ & Hl & _); [reflexivity | reflexivity |].
  exists r. split; [exact Hr|]. split.
  - rewrite Hl by discriminate. reflexivity.
  - rewrite Hn. reflexivity.
Defined.

(** X9. Given the instance that the registry resolves for a wrapper whose
    payload decodes to a v3 resource with metadata, [Unwrap] returns a
    resource and [UnwrapInto] returns nil, and the two results have the same
    type, fields, name, namespace, creator and labels, and the same
    annotations under every key but the etag key. *)
Theorem UnwrapInto_agrees_with_Unwrap
  (E : Externals) (w : Wrapper) (tm : corev2_TypeMeta) (z r0 : Resource)
  (md : corev2_ObjectMeta) :
  GetTypeMeta w = Some tm ->
  Resolve E (APIVersion tm) (Type_ tm) = Ok z ->
  UnwrapRaw E w = Ok r0 ->
  isV3Resource (rtype r0) = true ->
  Metadata r0 = Some md ->
  exists r r',
    Unwrap E w = Ok r
    /\ UnwrapInto E w (Ptr z) = (Ptr r', Done)
    /\ rtype r' = rtype r /\ Spec r' = Spec r
    /\ Name (default new_ObjectMeta (Metadata r'))
       = Name (default new_ObjectMeta (Metadata r))
    /\ Namespace (default new_ObjectMeta (Metadata r'))
       = Namespace (default new_ObjectMeta (Metadata r))
    /\ CreatedBy (default new_ObjectMeta (Metadata r'))
       = CreatedBy (default new_ObjectMeta (Metadata r))
    /\ labels_of r' = labels_of r
    /\ (forall k, k ≠ SensuETagKey E -> annotations_of r' !! k = annotations_of r !! k).
Proof.
  intros Htm Hres Hraw Hv3 Hmd.
  pose proof Hraw as Hraw'. unfold UnwrapRaw in Hraw'. rewrite Htm, Hres in Hraw'.
  simpl in Hraw'.
  destruct (Decompress E (GetCompression w) (GetValue w)) as [message|err|] eqn:Hdec;
    try discriminate.
  destruct (Decode E (GetEncoding w) message z) as [r1 [err|]] eqn:Hdecode;
    try discriminate.
  injection Hraw' as ->.
  unfold Unwrap, UnwrapInto. rewrite Hraw. simpl. rewrite Hdec, Hdecode, Hv3, Hmd. simpl.
  eexists _, _. split; [reflexivity|]. split; [reflexivity|].
  unfold labels_of, annotations_of. simpl.
  do 5 (split; [reflexivity|]).
  split.
  - destruct (IsZero (DeletedAt w)); reflexivity.
  - intros k Hk. rewrite lookup_insert_ne by congruence. reflexivity.
Qed.

Lemma UnwrapInto_agrees_with_Unwrap_witness :
  exists r r',
    Unwrap Demo.externals Demo.wrapper_foo_deleted = Ok r
    /\ UnwrapInto Demo.externals Demo.wrapper_foo_deleted
         (Ptr (Demo.zero_of Demo.EntityConfig)) = (Ptr r', Done)
    /\ labels_of r' = labels_of r.
Proof.
  destruct (UnwrapInto_agrees_with_Unwrap Demo.externals Demo.wrapper_foo_deleted
              Demo.EntityConfig_TypeMeta (Demo.zero_of Demo.EntityConfig)
              Demo.entity_foo
              (Demo.meta "foo" (Some (<["region" := "eu"]> ∅)) None))
    as (r & r' & Hr & Hr' & _ & _ & _ & _ & _ & Hl & _); try reflexivity.
  exists r, r'. split; [exact Hr|]. split; [exact Hr'|exact Hl].
Defined.

(** X10. When decompression fails, [UnwrapInto] returns an unwrapping error
    that names the type of the target and leaves the target as it was; when
    decoding fails it returns the decoder's error; and a target that is not a
    v3 resource ends up exactly as the decoder left it, with no label or
    annotation written. *)
Theorem UnwrapInto_failures_and_plain_targets
  (E : Externals) (w : Wrapper) (p : iface) :
  (forall err, Decompress E (GetCompression w) (GetValue w) = Err err ->
     UnwrapInto E w p = (p, Failed (ErrUnwrapping (rtype (underlying p)) err)))
  /\ (forall message err,
        Decompress E (GetCompression w) (GetValue w) = Ok message ->
        (Decode E (GetEncoding w) message (underlying p)).2 = Some err ->
        (UnwrapInto E w p).2 = Failed err
        /\ underlying (UnwrapInto E w p).1
           = (Decode E (GetEncoding w) message (underlying p)).1)
  /\ (forall message p0,
        Decompress E (GetCompression w) (GetValue w) = Ok message ->
        Decode E (GetEncoding w) message (underlying p) = (p0, None) ->
        isV3Resource (rtype p0) = false ->
        (UnwrapInto E w p).2 = Done /\ underlying (UnwrapInto E w p).1 = p0).
Proof.
  unfold UnwrapInto. repeat apply conj.
  - intros err ->. destruct p; reflexivity.
  - intros message err -> Hd.
    destruct (Decode E (GetEncoding w) message (underlying p)) as [p0 [e|]];
      simpl in Hd; [|discriminate]. injection Hd as ->.
    destruct p; split; reflexivity.
  - intros message p0 -> -> ->. destruct p; split; reflexivity.
Qed.

Lemma UnwrapInto_failures_and_plain_targets_witness :
  UnwrapInto Demo.externals (set_Compression Demo.wrapper_foo Compression_snappy)
    (Ptr Demo.entity_bare)
  = (Ptr Demo.entity_bare,
     Failed (ErrUnwrapping Demo.EntityConfig (ExternalError "snappy: corrupt input")))
  /\ (UnwrapInto Demo.externals Demo.wrapper_foo (Ptr Demo.blob)).2 = Done.
Proof.
  split.
  - apply (proj1 (UnwrapInto_failures_and_plain_targets Demo.externals
                    (set_Compression Demo.wrapper_foo Compression_snappy)
                    (Ptr Demo.entity_bare))).
    reflexivity.
  - apply (proj2 (proj2 (UnwrapInto_failures_and_plain_targets Demo.externals
                           Demo.wrapper_foo (Ptr Demo.blob)))
             (list_byte_of_string Demo.json_foo)
             {| rtype := Demo.Blob; Metadata := Metadata Demo.entity_foo;
                Spec := Spec Demo.entity_foo |}); reflexivity.
Defined.

(** ** Lists of wrappers, further *)

Lemma Unwrap_from_all (E : Externals) (l : List) :
  (forall w, w ∈ l -> exists r, Unwrap E w = Ok r) ->
  forall i0, exists rs,
    Unwrap_from E i0 l = Ok rs
    /\ length rs = length l
    /\ forall i w, l !! i = Some w -> exists r, Unwrap E w = Ok r /\ rs !! i = Some r.
Proof.
  induction l as [|w0 l IH]; intros Hall i0; simpl.
  - exists []. repeat split. intros i w Hi. destruct i; discriminate.
  - destruct (Hall w0) as [r0 Hr0]; [left|]. rewrite Hr0.
    destruct (IH (fun w Hw => Hall w (list_elem_of_further _ _ _ Hw)) (S i0))
      as (rs & -> & Hlen & Hnth).
    simpl. exists (r0 :: rs). split; [reflexivity|]. split; [simpl; by rewrite Hlen|].
    intros [|i] w Hi; simpl in Hi.
    + injection Hi as <-. eauto.
    + apply Hnth. exact Hi.
Qed.

(** X11. When every wrapper of a list unwraps, [List.Unwrap] returns as many
    resources as there are wrappers, in the order of the wrappers: the
    resource at index [i] is what [Unwrap] returns for wrapper [i]. *)
Theorem List_Unwrap_in_order (E : Externals) (l : List) :
  (forall w, w ∈ l -> exists r, Unwrap E w = Ok r) ->
  exists rs,
    List_Unwrap E l = Ok rs
    /\ length rs = length l
    /\ forall i w, l !! i = Some w -> exists r, Unwrap E w = Ok r /\ rs !! i = Some r.
Proof. intros Hall. apply (Unwrap_from_all E l Hall 0%nat). Qed.

Lemma List_Unwrap_in_order_witness :
  exists rs,
    List_Unwrap Demo.externals [Demo.wrapper_foo; Demo.wrapper_bare] = Ok rs
    /\ length rs = 2%nat.
Proof.
  destruct (List_Unwrap_in_order Demo.externals [Demo.wrapper_foo; Demo.wrapper_bare])
    as (rs & Hrs & Hlen & _).
  - intros w Hw. apply list_elem_of_In in Hw.
    destruct Hw as [<- | [<- | []]]; eexists; vm_compute; reflexivity.
  - exists rs. split; [exact Hrs|exact Hlen].
Defined.

Lemma Unwrap_from_first_failure (E : Externals) (pre post : List) (w : Wrapper)
  (err : error) :
  (forall w', w' ∈ pre -> exists r, Unwrap E w' = Ok r) ->
  Unwrap E w = Err err ->
  forall i0, Unwrap_from E i0 (pre ++ w :: post)%list
             = Err (ErrWrapListItem (i0 + length pre)%nat err).
Proof.
  induction pre as [|w0 pre IH]; intros Hall Hw i0; simpl.
  - rewrite Hw. f_equal. f_equal. lia.
  - destruct (Hall w0) as [r0 ->]; [left|].
    rewrite (IH (fun w' Hw' => Hall w' (list_elem_of_further _ _ _ Hw')) Hw (S i0)).
    simpl. f_equal. f_equal. lia.
Qed.

(** X12. [List.Unwrap] stops at the first wrapper that fails to unwrap: it
    returns no resources at all, and an error that carries the index of that
    wrapper and its error, whatever comes after it in the list. *)
Theorem List_Unwrap_first_failure (E : Externals) (pre post : List) (w : Wrapper)
  (err : error) :
  (forall w', w' ∈ pre -> exists r, Unwrap E w' = Ok r) ->
  Unwrap E w = Err err ->
  List_Unwrap E (pre ++ w :: post)%list = Err (ErrWrapListItem (length pre) err).
Proof.
  intros Hall Hw. unfold List_Unwrap.
  by rewrite (Unwrap_from_first_failure E pre post w err Hall Hw 0%nat).
Qed.

Lemma List_Unwrap_first_failure_witness :
  List_Unwrap Demo.externals
    ([Demo.wrapper_foo] ++ set_Compression Demo.wrapper_foo 4 :: [Demo.wrapper_bare])%list
  = Err (ErrWrapListItem 1
           (ErrUnwrapping Demo.EntityConfig (ErrInvalidCompression ""))).
Proof.
  apply (List_Unwrap_first_failure Demo.externals [Demo.wrapper_foo] [Demo.wrapper_bare]
           (set_Compression Demo.wrapper_foo 4)).
  - intros w' Hw. apply list_elem_of_In in Hw.
    destruct Hw as [<- | []]. eexists. vm_compute. reflexivity.
  - vm_compute. reflexivity.
Defined.

(** X13. For a non-empty list and a pointer to a [[]corev3.Resource],
    [List.UnwrapInto] is all or nothing: when it returns nil the slice has
    been replaced by the resources of [List.Unwrap], one per wrapper, and
    otherwise the slice is the one the caller passed. *)
Theorem List_UnwrapInto_resources_all_or_nothing
  (E : Externals) (l : List) (old : list Resource) (t : Target) (st : status) :
  l ≠ [] ->
  List_UnwrapInto E l (PointerToResources old) = (t, st) ->
  (st = Done ->
   exists rs, t = PointerToResources rs /\ List_Unwrap E l = Ok rs
              /\ length rs = length l)
  /\ (st ≠ Done -> t = PointerToResources old).
Proof.
  intros Hl H. unfold List_UnwrapInto in H.
  destruct l as [|w l]; [contradiction|]. cbn [length Nat.eqb] in H.
  destruct (List_Unwrap E (w :: l)) as [rs|err|] eqn:Hrs; injection H as <- <-.
  - split; [|intros []; reflexivity]. intros _. exists rs. repeat split.
    clear Hl. unfold List_Unwrap in Hrs.
    assert (forall l i0 rs, Unwrap_from E i0 l = Ok rs -> length rs = length l) as Hlen.
    { clear. induction l as [|w l IH]; intros i0 rs H; simpl in H.
      - by injection H as <-.
      - destruct (Unwrap E w); try discriminate.
        apply bind_Ok_inv in H as (ps & Hps & H). injection H as <-.
        simpl. f_equal. by apply (IH (S i0)). }
    by apply (Hlen _ 0%nat).
  - split; [discriminate|reflexivity].
  - split; [discriminate|reflexivity].
Qed.

Lemma List_UnwrapInto_resources_all_or_nothing_witness :
  (List_UnwrapInto Demo.externals [set_Compression Demo.wrapper_foo 4]
     (PointerToResources [Demo.entity_bare])).1
  = PointerToResources [Demo.entity_bare].
Proof.
  apply (proj2 (List_UnwrapInto_resources_all_or_nothing Demo.externals
                  [set_Compression Demo.wrapper_foo 4] [Demo.entity_bare]
                  (PointerToResources [Demo.entity_bare])
                  (Failed (ErrWrapListItem 0
                             (ErrUnwrapping Demo.EntityConfig (ErrInvalidCompression ""))))
                  ltac:(discriminate) ltac:(vm_compute; reflexivity)));
    discriminate.
Defined.

Lemma UnwrapInto_elems_Panicked (E : Externals) (zero : Resource) (l : List)
  (objs objs' : list Resource) (slots slots' : list Slot) :
  (length l <= length slots)%nat ->
  UnwrapInto_elems E zero l objs slots = ((objs', slots'), Panicked) ->
  exists w p, w ∈ l /\ (UnwrapInto E w (Ptr p)).2 = Panicked.
Proof.
  revert objs objs' slots slots'.
  induction l as [|w0 l IH]; intros objs objs' slots slots' Hlen H; simpl in H.
  - discriminate.
  - destruct slots as [|[r|elt] rest]; [simpl in Hlen; lia| |];
      (assert (length l <= length rest)%nat as Hlen' by (simpl in Hlen; lia)).
    + destruct (UnwrapInto E w0 (Ptr r)) as [p [|err|]] eqn:Hp.
      * destruct (UnwrapInto_elems E zero l objs rest) as [[objs1 rest'] st] eqn:Hrest.
        injection H as _ _ ->.
        destruct (IH _ _ _ _ Hlen' Hrest) as (w & q & Hw & Hq).
        exists w, q. split; [by right|exact Hq].
      * discriminate.
      * eexists w0, _. split; [left|]. rewrite Hp. reflexivity.
    + destruct elt as [a|].
      * destruct (UnwrapInto E w0 (Ptr (default zero (objs !! a)))) as [p [|err|]] eqn:Hp.
        -- destruct (UnwrapInto_elems E zero l _ rest) as [[objs1 rest'] st] eqn:Hrest.
           injection H as _ _ ->.
           destruct (IH _ _ _ _ Hlen' Hrest) as (w & q & Hw & Hq).
           exists w, q. split; [by right|exact Hq].
        -- discriminate.
        -- eexists w0, _. split; [left|]. rewrite Hp. reflexivity.
      * destruct (UnwrapInto E w0
                    (Ptr (default zero ((objs ++ [zero])%list !! length objs))))
          as [p [|err|]] eqn:Hp.
        -- destruct (UnwrapInto_elems E zero l _ rest) as [[objs1 rest'] st] eqn:Hrest.
           injection H as _ _ ->.
           destruct (IH _ _ _ _ Hlen' Hrest) as (w & q & Hw & Hq).
           exists w, q. split; [by right|exact Hq].
        -- discriminate.
        -- eexists w0, _. split; [left|]. rewrite Hp. reflexivity.
Qed.

Lemma UnwrapInto_elems_beyond (E : Externals) (zero : Resource) (l : List)
  (objs : list Resource) (slots : list Slot) (i : nat) :
  (length l <= i)%nat ->
  (UnwrapInto_elems E zero l objs slots).1.2 !! i = slots !! i.
Proof.
  revert objs slots i.
  induction l as [|w0 l IH]; intros objs slots i Hi; simpl; [reflexivity|].
  destruct slots as [|[r|elt] rest]; [reflexivity| |];
    (destruct i as [|i]; [simpl in Hi; lia|]).
  - destruct (UnwrapInto E w0 (Ptr r)) as [p [|err|]]; simpl; try reflexivity.
    specialize (IH objs rest i ltac:(simpl in Hi; lia)).
    destruct (UnwrapInto_elems E zero l objs rest) as [[objs1 rest'] st]. exact IH.
  - destruct elt as [a|].
    + destruct (UnwrapInto E w0 (Ptr (default zero (objs !! a)))) as [p [|err|]];
        simpl; try reflexivity.
      specialize (IH (<[a := underlying p]> objs) rest i ltac:(simpl in Hi; lia)).
      destruct (UnwrapInto_elems E zero l _ rest) as [[objs1 rest'] st]. exact IH.
    + destruct (UnwrapInto E w0
                  (Ptr (default zero ((objs ++ [zero])%list !! length objs))))
        as [p [|err|]]; simpl; try reflexivity.
      specialize (IH (<[length objs := underlying p]> (objs ++ [zero])%list) rest i
                    ltac:(simpl in Hi; lia)).
      destruct (UnwrapInto_elems E zero l _ rest) as [[objs1 rest'] st]. exact IH.
Qed.

(** X14. Into a pointer to a slice, [List.UnwrapInto] never indexes the slice
    out of range: if the call panics, it is [UnwrapInto] of one of the
    wrappers that panicked. *)
Theorem List_UnwrapInto_panics_only_in_elements
  (E : Externals) (l : List) (v : Slice) (t : Target) :
  l ≠ [] ->
  List_UnwrapInto E l (PointerToSlice v) = (t, Panicked) ->
  exists w p, w ∈ l /\ (UnwrapInto E w (Ptr p)).2 = Panicked.
Proof.
  intros Hl H.
  destruct (List_UnwrapInto_slice E l v Hl) as (v' & st & Hrun & _ & _ & Helems).
  rewrite Hrun in H. injection H as _ ->.
  eapply (UnwrapInto_elems_Panicked E (elemZero v) l); [|exact Helems].
  unfold resized_slots.
  destruct (Nat.ltb_spec (slice_Cap v) (length l)) as [Hlt|Hge].
  - by rewrite length_replicate.
  - rewrite length_app. exact Hge.
Qed.

Lemma List_UnwrapInto_panics_only_in_elements_witness :
  exists w p,
    w ∈ [Demo.wrapper_bare]
    /\ (UnwrapInto Demo.externals w (Ptr p)).2 = Panicked.
Proof.
  apply (List_UnwrapInto_panics_only_in_elements Demo.externals [Demo.wrapper_bare]
           Demo.one_nil
           (PointerToSlice
              {| elemIsPtr := true; elemZero := Demo.zero_of Demo.EntityConfig;
                 objects := [Demo.entity_bare];
                 elems := [Pointer (Some 0%nat)]; spare := [] |})).
  - discriminate.
  - vm_compute. reflexivity.
Defined.

(** X15. Into a pointer to a slice, [List.UnwrapInto] with [n > 0] wrappers
    leaves a slice whose length is the larger of [n] and the capacity the
    slice had, and in which the pointers stored from index [n] on are the
    ones that were there (the former elements and spare slots, or nil
    pointers when the slice was reallocated).  The objects behind them are a
    different matter: one that an earlier slot points to as well has been
    unwrapped into. *)
Theorem List_UnwrapInto_length_and_rest
  (E : Externals) (l : List) (v : Slice) :
  l ≠ [] ->
  exists v' st,
    List_UnwrapInto E l (PointerToSlice v) = (PointerToSlice v', st)
    /\ slice_Len v' = Nat.max (slice_Cap v) (length l)
    /\ forall i a, (length l <= i)%nat ->
         resized_slots v (length l) !! i = Some (Pointer a) ->
         elems v' !! i = Some (Pointer a).
Proof.
  intros Hl.
  destruct (List_UnwrapInto_slice E l v Hl) as (v' & st & Hrun & Hlen & _ & Helems).
  exists v', st. split; [exact Hrun|]. split; [exact Hlen|].
  intros i a Hi Hslot.
  pose proof (UnwrapInto_elems_beyond E (elemZero v) l (objects v)
                (resized_slots v (length l)) i Hi) as Hb.
  rewrite Helems in Hb. simpl in Hb. by rewrite Hb.
Qed.

Lemma List_UnwrapInto_length_and_rest_witness :
  exists v',
    (List_UnwrapInto Demo.externals [Demo.wrapper_foo]
       (PointerToSlice Demo.same_pointer_twice)).1 = PointerToSlice v'
    /\ slice_Len v' = 2%nat
    /\ elems v' !! 1%nat = Some (Pointer (Some 0%nat))
    /\ objects v' !! 0%nat ≠ objects Demo.same_pointer_twice !! 0%nat.
Proof.
  destruct (List_UnwrapInto_length_and_rest Demo.externals [Demo.wrapper_foo]
              Demo.same_pointer_twice) as (v' & st & Hrun & Hlen & Hrest);
    [discriminate|].
  exists v'. rewrite Hrun. split; [reflexivity|]. split; [exact Hlen|].
  split; [apply (Hrest 1%nat (Some 0%nat)); [simpl; lia|reflexivity]|].
  vm_compute in Hrun. injection Hrun as <- _. discriminate.
Defined.

(** X16. [UnwrapInto] undoes [wrapWithoutValidation]: under the conditions
    of the round trip (built-in options, codecs that decode into the fresh
    instance what they encoded, a snappy that undoes itself), unwrapping the
    wrapper into a fresh instance of the type gives back the value itself
    when it is not a v3 resource, and a resource equal to it up to the
    storage keys when it is one and has metadata. *)
Theorem wrapWithoutValidation_UnwrapInto_round_trip
  (E : Externals) (r : iface) (opts : list Option) (w : Wrapper) (z : Resource) :
  Forall builtin opts ->
  rtype z = rtype (underlying r) ->
  (forall m, json_Marshal E (underlying r) = Ok m ->
             json_Unmarshal E m z = (underlying r, None)) ->
  (forall m, proto_Marshal E (underlying r) = Ok m ->
             proto_Unmarshal E m z = (underlying r, None)) ->
  (forall m, snappy_Decode E (snappy_Encode E m) = Ok m) ->
  wrapWithoutValidation E r opts = Ok w ->
  (isV3Resource (rtype (underlying r)) = false ->
   UnwrapInto E w (Ptr z) = (Ptr (underlying r), Done))
  /\ (isV3Resource (rtype (underlying r)) = true ->
      is_Some (Metadata (underlying r)) ->
      exists r', UnwrapInto E w (Ptr z) = (Ptr r', Done)
                 /\ equal_modulo_storage_keys E r' (underlying r)).
Proof.
  intros Hopts Hz Hjson Hproto Hsnappy Hwrap.
  unfold wrapWithoutValidation in Hwrap. rewrite apply_defaults in Hwrap.
  apply bind_Ok_inv in Hwrap as (w1 & Hw1 & Hwrap).
  apply bind_Ok_inv in Hwrap as (m & Hm & Hwrap). injection Hwrap as <-.
  apply (apply_builtin_opts opts (underlying r) Hopts) in Hw1 as [Hframe [Henc Hcomp]].
  2:{ split; [|right; reflexivity]. simpl.
      destruct (isProtoMessage (rtype (underlying r))); auto. }
  destruct Hframe as (_ & _ & _ & Hd & _). simpl in Hd.
  unfold UnwrapInto. simpl.
  rewrite (Decompress_Compress E _ m Hsnappy Hcomp).
  rewrite (Decode_Encode E _ m (underlying r) z Hz Hjson Hproto Henc Hm).
  split.
  - intros ->. reflexivity.
  - intros -> [md Hmd]. rewrite Hmd, Hd. simpl.
    eexists. split; [reflexivity|].
    unfold equal_modulo_storage_keys, labels_of, annotations_of. simpl.
    rewrite Hmd. simpl. repeat split.
    destruct (Labels md); apply without_storage_labels_insert.
Qed.

Lemma wrapWithoutValidation_UnwrapInto_round_trip_witness :
  exists r',
    UnwrapInto Demo.externals Demo.wrapped_foo (Ptr (Demo.zero_of Demo.EntityConfig))
    = (Ptr r', Done)
    /\ equal_modulo_storage_keys Demo.externals r' Demo.entity_foo.
Proof.
  apply (proj2 (wrapWithoutValidation_UnwrapInto_round_trip Demo.externals
                  (Ptr Demo.entity_foo) [] Demo.wrapped_foo
                  (Demo.zero_of Demo.EntityConfig)
                  (Forall_nil_2 _) eq_refl
                  ltac:(intros m H; vm_compute in H; injection H as <-;
                        vm_compute; reflexivity)
                  ltac:(intros m H; vm_compute in H; injection H as <-;
                        vm_compute; reflexivity)
                  ltac:(intros m; reflexivity)
                  ltac:(vm_compute; reflexivity))).
  - reflexivity.
  - eexists. reflexivity.
Defined.

(* ===================================================================== *)
(** * Further properties of the PATCH handler *)
(* ===================================================================== *)

Section PatchFurther.

Import Handlers HandlerProps.

Lemma patchV3Resource_no_resource (E : Externals) (ctx : Context)
  (name namespace : string) (patcher : Patcher) :
  (patchV3Resource E ctx name namespace patcher).1 = None.
Proof.
  unfold patchV3Resource.
  destruct (Patch E ctx _ patcher) as [[[] msg | code cause]|]; reflexivity.
Qed.

(** X17. [PatchResource] never returns a resource in its response, whether
    it fails or the store applies the patch. *)
Theorem PatchResource_returns_no_resource (E : Externals) (r : Request) :
  Resource (PatchResource E r).1 = None.
Proof.
  unfold PatchResource.
  destruct (Body r) as [data [e|]]; [reflexivity|].
  destruct (switch_ContentType _ data) as [patcher|e]; [|reflexivity].
  destruct (negb (String.eqb (Get (Header r) ifMatchHeader) ""));
    [destruct (ReadIfMatch E _) as [im [e|]]; [reflexivity|]|];
    (destruct (negb (String.eqb (Get (Header r) ifNoneMatchHeader) ""));
     [destruct (ReadIfNoneMatch E _) as [inm [e|]]; [reflexivity|]|]);
    (destruct (url_PathUnescape E (Get (Vars r) "id")) as [name [e|]]; [reflexivity|];
     destruct (url_PathUnescape E (Get (Vars r) "namespace")) as [ns [e|]]; [reflexivity|];
     destruct (validatePatch E data (Vars r)); [reflexivity|]);
    match goal with
    | |- context [patchV3Resource E ?c ?n ?s ?p] =>
        pose proof (patchV3Resource_no_resource E c n s p) as Hres;
        destruct (patchV3Resource E c n s p); exact Hres
    end.
Qed.

(** X18. When the store applies every patch, the only errors of
    [PatchResource] are InvalidArgument errors and the error of unescaping a
    route variable, which is returned as it is. *)
Theorem PatchResource_own_errors (E : Externals) (r : Request) (err : error) :
  (forall ctx id patcher, Patch E ctx id patcher = None) ->
  (PatchResource E r).2 = Some err ->
  (exists cause, err = actions_Error InvalidArgument cause)
  \/ (url_PathUnescape E (Get (Vars r) "id")).2 = Some err
  \/ (url_PathUnescape E (Get (Vars r) "namespace")).2 = Some err.
Proof.
  intros Hstore. unfold PatchResource.
  destruct (Body r) as [data [e|]]; simpl.
  { intros H. injection H as <-. left. eauto. }
  unfold switch_ContentType.
  destruct (decide (_ \/ _)) as [_|_].
  2:{ destruct (decide _); simpl; intros H; injection H as <-; left; eauto. }
  destruct (negb (String.eqb (Get (Header r) ifMatchHeader) ""));
    [destruct (ReadIfMatch E _) as [im [e|]];
     [simpl; intros H; injection H as <-; left; eauto|]|];
    (destruct (negb (String.eqb (Get (Header r) ifNoneMatchHeader) ""));
     [destruct (ReadIfNoneMatch E _) as [inm [e|]];
      [simpl; intros H; injection H as <-; left; eauto|]|]);
    (destruct (url_PathUnescape E (Get (Vars r) "id")) as [name [e|]];
     [simpl; intros H; injection H as <-; right; left; reflexivity|];
     destruct (url_PathUnescape E (Get (Vars r) "namespace")) as [ns [e|]];
     [simpl; intros H; injection H as <-; right; right; reflexivity|];
     destruct (validatePatch E data (Vars r));
     [simpl; intros H; injection H as <-; left; eauto|]);
    unfold patchV3Resource; rewrite Hstore; simpl; discriminate.
Qed.

Lemma PatchResource_own_errors_witness :
  exists cause,
    (PatchResource DemoHandlers.externals
       (DemoHandlers.request (Some "text/plain") DemoHandlers.body_empty)).2
    = Some (actions_Error InvalidArgument cause).
Proof.
  destruct (PatchResource DemoHandlers.externals
              (DemoHandlers.request (Some "text/plain") DemoHandlers.body_empty)).2
    as [err|] eqn:Herr; [|vm_compute in Herr; discriminate].
  destruct (PatchResource_own_errors DemoHandlers.externals
              (DemoHandlers.request (Some "text/plain") DemoHandlers.body_empty) err)
    as [[cause ->] | [H | H]].
  - reflexivity.
  - exact Herr.
  - exists cause. reflexivity.
  - vm_compute in H. discriminate.
  - vm_compute in H. discriminate.
Defined.

(** X19. [patchV3Resource] returns an error exactly when the store does,
    and then it is an [actions] error with the store's error as its cause;
    its code is not found, invalid argument or precondition failed exactly
    when the store's error is of the matching store type, and internal for
    every other error. *)
Theorem patchV3Resource_classifies (E : Externals) (ctx : Context)
  (name namespace : string) (patcher : Patcher) (e : error) :
  Patch E ctx {| ID_Namespace := namespace; ID_Name := name |} patcher = Some e ->
  exists code,
    patchV3Resource E ctx name namespace patcher = (None, Some (actions_Error code e))
    /\ (code = NotFound <-> exists msg, e = mkError store_ErrNotFound msg)
    /\ (code = InvalidArgument <-> exists msg, e = mkError store_ErrNotValid msg)
    /\ (code = PreconditionFailed
        <-> exists msg, e = mkError store_ErrPreconditionFailed msg)
    /\ (code = InternalErr
        <-> (exists msg, e = mkError errorString msg)
            \/ exists c cause, e = actions_Error c cause).
Proof.
  intros He. unfold patchV3Resource. rewrite He.
  destruct e as [[] msg| c cause]; eexists; (split; [reflexivity|]);
    repeat split; intros H; try discriminate; eauto;
    try (destruct H as [? H]; discriminate);
    try (destruct H as [[? H] | (? & ? & H)]; discriminate).
Qed.

Lemma patchV3Resource_classifies_witness :
  exists code,
    patchV3Resource (DemoHandlers.externals_with_store "v2")
      {| ctx_IfMatch := Some ["v1"]; ctx_IfNoneMatch := None |} "foo" "default"
      (patch_Merge DemoHandlers.body_empty)
    = (None, Some (actions_Error code
                     (mkError store_ErrPreconditionFailed "precondition failed")))
    /\ code = PreconditionFailed.
Proof.
  destruct (patchV3Resource_classifies (DemoHandlers.externals_with_store "v2")
              {| ctx_IfMatch := Some ["v1"]; ctx_IfNoneMatch := None |} "foo" "default"
              (patch_Merge DemoHandlers.body_empty)
              (mkError store_ErrPreconditionFailed "precondition failed") eq_refl)
    as (code & Hrun & _ & _ & Hpre & _).
  exists code. split; [exact Hrun|]. apply Hpre. eauto.
Defined.

(** X20. A body that cannot be read, a malformed If-Match header and a
    malformed If-None-Match header each make [PatchResource] return an
    InvalidArgument error that quotes the cause; the body is looked at first,
    and If-Match before If-None-Match. *)
Theorem PatchResource_rejects_bad_request (E : Externals) (r : Request) :
  (forall e, (Body r).2 = Some e ->
     PatchResource E r
     = ({| Resource := None |},
        Some (actions_Error InvalidArgument
                (mkError errorString ("could not read the request body: " ++ Error e)))))
  /\ (forall data patcher e,
        Body r = (data, None) ->
        switch_ContentType (Get (Header r) "Content-Type") data = inl patcher ->
        Get (Header r) ifMatchHeader ≠ "" ->
        (ReadIfMatch E (Get (Header r) ifMatchHeader)).2 = Some e ->
        PatchResource E r
        = ({| Resource := None |},
           Some (actions_Error InvalidArgument
                   (mkError errorString ("invalid If-Match header: " ++ Error e)))))
  /\ (forall data patcher e,
        Body r = (data, None) ->
        switch_ContentType (Get (Header r) "Content-Type") data = inl patcher ->
        Get (Header r) ifMatchHeader = ""
        \/ (ReadIfMatch E (Get (Header r) ifMatchHeader)).2 = None ->
        Get (Header r) ifNoneMatchHeader ≠ "" ->
        (ReadIfNoneMatch E (Get (Header r) ifNoneMatchHeader)).2 = Some e ->
        PatchResource E r
        = ({| Resource := None |},
           Some (actions_Error InvalidArgument
                   (mkError errorString ("invalid If-None-Match header: " ++ Error e))))).
Proof.
  unfold PatchResource. repeat apply conj.
  - intros e He. destruct (Body r) as [data [e'|]]; simpl in He; [|discriminate].
    by injection He as ->.
  - intros data patcher e -> -> Hne He.
    apply String.eqb_neq in Hne. rewrite Hne. simpl.
    destruct (ReadIfMatch E _) as [im [e'|]]; simpl in He; [|discriminate].
    by injection He as ->.
  - intros data patcher e -> -> Him Hne He.
    apply String.eqb_neq in Hne. rewrite Hne. simpl.
    destruct (ReadIfNoneMatch E _) as [inm [e'|]]; simpl in He; [|discriminate].
    injection He as ->.
    destruct Him as [-> | Him]; simpl; [reflexivity|].
    destruct (ReadIfMatch E _) as [im [e'|]]; simpl in Him; [discriminate|].
    destruct (negb _); reflexivity.
Qed.

Lemma PatchResource_rejects_bad_request_witness :
  PatchResource DemoHandlers.externals
    {| Body := ([], Some (mkError errorString "unexpected EOF"));
       Header := ∅;
       Context_ := {| ctx_IfMatch := None; ctx_IfNoneMatch := None |};
       Vars := ∅ |}
  = ({| Resource := None |},
     Some (actions_Error InvalidArgument
             (mkError errorString "could not read the request body: unexpected EOF"))).
Proof.
  apply (proj1 (PatchResource_rejects_bad_request DemoHandlers.externals
                  {| Body := ([], Some (mkError errorString "unexpected EOF"));
                     Header := ∅;
                     Context_ := {| ctx_IfMatch := None; ctx_IfNoneMatch := None |};
                     Vars := ∅ |})
           (mkError errorString "unexpected EOF")).
  reflexivity.
Defined.

(** X21. When both If headers are present and parse, and the request passes
    the checks of the handler, the store is asked to patch the resource named
    by the unescaped route variables, under a context that carries both
    parsed preconditions, and [PatchResource] returns what [patchV3Resource]
    makes of the store's answer. *)
Theorem PatchResource_hands_preconditions_to_store
  (E : Externals) (r : Request) (data : bytes) (patcher : Patcher)
  (namespace name : string) (im inm : list string) :
  Body r = (data, None) ->
  switch_ContentType (Get (Header r) "Content-Type") data = inl patcher ->
  Get (Header r) ifMatchHeader ≠ "" ->
  ReadIfMatch E (Get (Header r) ifMatchHeader) = (im, None) ->
  Get (Header r) ifNoneMatchHeader ≠ "" ->
  ReadIfNoneMatch E (Get (Header r) ifNoneMatchHeader) = (inm, None) ->
  url_PathUnescape E (Get (Vars r) "namespace") = (namespace, None) ->
  url_PathUnescape E (Get (Vars r) "id") = (name, None) ->
  validatePatch E data (Vars r) = None ->
  PatchResource E r
  = ({| Resource := None |},
     (patchV3Resource E {| ctx_IfMatch := Some im; ctx_IfNoneMatch := Some inm |}
        name namespace patcher).2).
Proof.
  intros Hb Hs Him Hrim Hinm Hrinm Hns Hid Hv. unfold PatchResource.
  apply String.eqb_neq in Him, Hinm.
  rewrite Hb, Hs, Him, Hrim, Hinm, Hrinm, Hid, Hns, Hv. simpl.
  pose proof (patchV3Resource_no_resource E
                {| ctx_IfMatch := Some im; ctx_IfNoneMatch := Some inm |}
                name namespace patcher) as Hres.
  unfold ContextWithIfNoneMatch, ContextWithIfMatch. simpl.
  destruct (patchV3Resource E _ name namespace patcher) as [res err].
  simpl in *. by rewrite Hres.
Qed.

Lemma PatchResource_hands_preconditions_to_store_witness :
  PatchResource (DemoHandlers.externals_with_store "v2")
    (DemoHandlers.conditional_request "v1" "v0" DemoHandlers.body_empty)
  = ({| Resource := None |},
     Some (actions_Error PreconditionFailed
             (mkError store_ErrPreconditionFailed "precondition failed")))
  /\ PatchResource (DemoHandlers.externals_with_store "v2")
       (DemoHandlers.conditional_request "v2" "v0" DemoHandlers.body_empty)
     = ({| Resource := None |}, None).
Proof.
  split.
  - apply (PatchResource_hands_preconditions_to_store
             (DemoHandlers.externals_with_store "v2")
             (DemoHandlers.conditional_request "v1" "v0" DemoHandlers.body_empty)
             DemoHandlers.body_empty (patch_Merge DemoHandlers.body_empty)
             "default" "foo" ["v1"] ["v0"]); try reflexivity; discriminate.
  - apply (PatchResource_hands_preconditions_to_store
             (DemoHandlers.externals_with_store "v2")
             (DemoHandlers.conditional_request "v2" "v0" DemoHandlers.body_empty)
             DemoHandlers.body_empty (patch_Merge DemoHandlers.body_empty)
             "default" "foo" ["v2"] ["v0"]); try reflexivity; discriminate.
Defined.

End PatchFurther.

Section PatchIdentity.

Import Handlers HandlerProps.

(** X22. [validatePatch] looks at the namespace first: a body whose namespace
    is set and differs from the route fails with an error that quotes both
    namespaces, whatever its name is and without the id of the route being
    unescaped; a body whose namespace passes and whose name is set and
    differs fails with an error that quotes both names. *)
Theorem validatePatch_reports_the_mismatch
  (E : Externals) (data : bytes) (vars : gmap string string)
  (b : body) (md : Wrap.corev2_ObjectMeta) (namespace : string) :
  json_Unmarshal E data {| Metadata := None |} = (b, None) ->
  Metadata b = Some md ->
  url_PathUnescape E (Get vars "namespace") = (namespace, None) ->
  (Wrap.Namespace md ≠ "" -> Wrap.Namespace md ≠ namespace ->
   validatePatch E data vars
   = Some (mkError errorString
             ("the namespace of the resource (" ++ Wrap.Namespace md
              ++ ") does not match the namespace in the URI (" ++ namespace ++ ")")))
  /\ (forall name,
        Wrap.Namespace md = "" \/ Wrap.Namespace md = namespace ->
        url_PathUnescape E (Get vars "id") = (name, None) ->
        Wrap.Name md ≠ "" -> Wrap.Name md ≠ name ->
        validatePatch E data vars
        = Some (mkError errorString
                  ("the name of the resource (" ++ Wrap.Name md
                   ++ ") does not match the name in the URI (" ++ name ++ ")"))).
Proof.
  intros Hj Hmd Hns. unfold validatePatch. rewrite Hj, Hmd, Hns. split.
  - intros H0 H1. apply String.eqb_neq in H0, H1. rewrite H0, H1. reflexivity.
  - intros name Hn Hid H0 H1. rewrite Hid.
    apply String.eqb_neq in H0, H1. rewrite H0, H1. simpl.
    destruct Hn as [Hn | Hn]; apply String.eqb_eq in Hn; rewrite Hn; simpl;
      [reflexivity|]. destruct (negb _); reflexivity.
Qed.

Lemma validatePatch_reports_the_mismatch_witness :
  validatePatch DemoHandlers.externals DemoHandlers.body_other_namespace
    (<["namespace" := "default"]> (<["id" := "%zz"]> ∅))
  = Some (mkError errorString
            "the namespace of the resource (other) does not match the namespace in the URI (default)").
Proof.
  destruct (validatePatch_reports_the_mismatch DemoHandlers.externals
              DemoHandlers.body_other_namespace
              (<["namespace" := "default"]> (<["id" := "%zz"]> ∅))
              {| Metadata := Some (DemoHandlers.identity "other" "") |}
              (DemoHandlers.identity "other" "") "default") as [H _];
    [vm_compute; reflexivity.. | apply H; discriminate].
Defined.

(** X23. [validatePatch] returns the decoder's error for a body that does not
    decode; it accepts a body without metadata without unescaping any route
    variable; and with metadata present, a route variable that does not
    unescape makes it fail with the unescape error even when the body sets
    neither namespace nor name. *)
Theorem validatePatch_decoding_and_route_errors
  (E : Externals) (data : bytes) (vars : gmap string string) :
  (forall err, (json_Unmarshal E data {| Metadata := None |}).2 = Some err ->
     validatePatch E data vars = Some err)
  /\ (forall b, json_Unmarshal E data {| Metadata := None |} = (b, None) ->
        Metadata b = None -> validatePatch E data vars = None)
  /\ (forall b md err,
        json_Unmarshal E data {| Metadata := None |} = (b, None) ->
        Metadata b = Some md ->
        (url_PathUnescape E (Get vars "namespace")).2 = Some err ->
        validatePatch E data vars = Some err)
  /\ (forall b md namespace err,
        json_Unmarshal E data {| Metadata := None |} = (b, None) ->
        Metadata b = Some md ->
        url_PathUnescape E (Get vars "namespace") = (namespace, None) ->
        Wrap.Namespace md = "" \/ Wrap.Namespace md = namespace ->
        (url_PathUnescape E (Get vars "id")).2 = Some err ->
        validatePatch E data vars = Some err).
Proof.
  unfold validatePatch. repeat apply conj.
  - intros err H. destruct (json_Unmarshal E data _) as [b [e|]]; simpl in H;
      [|discriminate]. by injection H as ->.
  - intros b -> ->. reflexivity.
  - intros b md err -> -> H.
    destruct (url_PathUnescape E (Get vars "namespace")) as [ns [e|]]; simpl in H;
      [|discriminate]. by injection H as ->.
  - intros b md namespace err -> -> -> Hn H.
    assert (negb (String.eqb (Wrap.Namespace md) "")
            && negb (String.eqb (Wrap.Namespace md) namespace) = false) as ->.
    { destruct Hn as [Hn | Hn]; apply String.eqb_eq in Hn; rewrite Hn; simpl;
        [reflexivity|]. destruct (negb _); reflexivity. }
    destruct (url_PathUnescape E (Get vars "id")) as [nm [e|]]; simpl in H;
      [|discriminate]. by injection H as ->.
Qed.

Lemma validatePatch_decoding_and_route_errors_witness :
  validatePatch DemoHandlers.externals (list_byte_of_string "{")
    (<["namespace" := "default"]> (<["id" := "foo"]> ∅))
  = Some (mkError errorString "unexpected end of JSON input")
  /\ validatePatch DemoHandlers.externals DemoHandlers.body_empty
       (<["namespace" := "%zz"]> ∅) = None
  /\ validatePatch DemoHandlers.externals DemoHandlers.body_same_identity
       (<["namespace" := "default"]> (<["id" := "%zz"]> ∅))
     = Some (mkError errorString "invalid URL escape").
Proof.
  split; [|split].
  - apply (proj1 (validatePatch_decoding_and_route_errors DemoHandlers.externals
                    (list_byte_of_string "{")
                    (<["namespace" := "default"]> (<["id" := "foo"]> ∅)))).
    reflexivity.
  - apply (proj1 (proj2 (validatePatch_decoding_and_route_errors DemoHandlers.externals
                           DemoHandlers.body_empty (<["namespace" := "%zz"]> ∅)))
             {| Metadata := None |}); vm_compute; reflexivity.
  - apply (proj2 (proj2 (proj2 (validatePatch_decoding_and_route_errors
                                  DemoHandlers.externals DemoHandlers.body_same_identity
                                  (<["namespace" := "default"]> (<["id" := "%zz"]> ∅)))))
             {| Metadata := Some (DemoHandlers.identity "default" "foo") |}
             (DemoHandlers.identity "default" "foo") "default");
      try (vm_compute; reflexivity). right. reflexivity.
Defined.

End PatchIdentity.

(* ===================================================================== *)
(** * Properties of package silenced *)
(* ===================================================================== *)

Section SilencedProperties.

Import Silenced SilencedProps.

Lemma AddToSilencedBy_cases (E : Externals) (id : string) (ids : list string) :
  AddToSilencedBy E id ids = ids \/ AddToSilencedBy E id ids = (ids ++ [id])%list.
Proof. unfold AddToSilencedBy. destruct (InArray E id ids); simpl; auto. Qed.

Lemma AddToSilencedBy_once (E : Externals) (id : string) (ids : list string) :
  InArray_sound E -> InArray_finds_names E -> id ≠ "" ->
  (AddToSilencedBy E id ids = ids
   \/ AddToSilencedBy E id ids = (ids ++ [id])%list)
  /\ id ∈ AddToSilencedBy E id ids
  /\ (NoDup ids -> NoDup (AddToSilencedBy E id ids))
  /\ AddToSilencedBy E id (AddToSilencedBy E id ids) = AddToSilencedBy E id ids.
Proof.
  intros Hsound Hfinds Hid.
  assert (id ∈ AddToSilencedBy E id ids) as Hin.
  { unfold AddToSilencedBy. destruct (InArray E id ids) eqn:Hi; simpl.
    - by apply Hsound.
    - apply elem_of_app. right. by apply list_elem_of_singleton. }
  split; [apply AddToSilencedBy_cases|]. split; [exact Hin|]. split.
  - intros Hnd. unfold AddToSilencedBy.
    destruct (InArray E id ids) eqn:Hi; simpl; [exact Hnd|].
    apply NoDup_app. split; [exact Hnd|]. split; [|apply NoDup_singleton].
    intros x Hx Hx'. apply list_elem_of_singleton in Hx'. subst x.
    rewrite (Hfinds id ids Hid Hx) in Hi. discriminate.
  - unfold AddToSilencedBy at 1.
    by rewrite (Hfinds id _ Hid Hin).
Qed.

(** X24. [AddToSilencedBy] only ever appends: the result is the given list,
    or that list followed by the ID.  With an [InArray] that is sound and
    finds non-empty items, and a non-empty ID, the result contains the ID,
    keeps a duplicate-free list duplicate-free, and adding the same ID again
    changes nothing. *)
Theorem AddToSilencedBy_adds_once (E : Externals) (id : string) (ids : list string) :
  InArray_sound E -> InArray_finds_names E -> id ≠ "" ->
  (AddToSilencedBy E id ids = ids
   \/ AddToSilencedBy E id ids = (ids ++ [id])%list)
  /\ id ∈ AddToSilencedBy E id ids
  /\ (NoDup ids -> NoDup (AddToSilencedBy E id ids))
  /\ AddToSilencedBy E id (AddToSilencedBy E id ids) = AddToSilencedBy E id ids.
Proof. apply AddToSilencedBy_once. Qed.

Lemma AddToSilencedBy_adds_once_witness :
  AddToSilencedBy DemoSilenced.externals "web:check1" ["linux:*"]
  = ["linux:*"; "web:check1"]
  /\ AddToSilencedBy DemoSilenced.externals "linux:*" ["linux:*"] = ["linux:*"].
Proof.
  assert (InArray_sound DemoSilenced.externals) as Hs.
  { intros item array H. by apply bool_decide_eq_true in H. }
  assert (InArray_finds_names DemoSilenced.externals) as Hf.
  { intros item array _ H. by apply bool_decide_eq_true. }
  split.
  - destruct (AddToSilencedBy_adds_once DemoSilenced.externals "web:check1" ["linux:*"]
                Hs Hf ltac:(discriminate)) as ([H | H] & _); [|exact H].
    vm_compute in H. discriminate.
  - destruct (AddToSilencedBy_adds_once DemoSilenced.externals "linux:*" ["linux:*"]
                Hs Hf ltac:(discriminate)) as ([H | H] & _); [exact H|].
    vm_compute in H. discriminate.
Defined.

Lemma add_names_elem_of (E : Externals) (l : list corev2_Silenced) (names : list string)
  (n : string) :
  n ∈ add_names E l names -> n ∈ names \/ exists e, e ∈ l /\ Name e = n.
Proof.
  revert names. induction l as [|e l IH]; intros names H; simpl in H; [by left|].
  apply IH in H as [H | (e' & He' & Hn)].
  - destruct (AddToSilencedBy_cases E (Name e) names) as [Heq | Heq];
      rewrite Heq in H; [by left|].
    apply elem_of_app in H as [H | H]; [by left|].
    apply list_elem_of_singleton in H. right. exists e. split; [left|done].
  - right. exists e'. split; [by right|exact Hn].
Qed.

Lemma add_names_complete (E : Externals) (l : list corev2_Silenced) (names : list string) :
  InArray_sound E -> InArray_finds_names E ->
  (forall e, e ∈ l -> Name e ≠ "") ->
  NoDup names ->
  NoDup (add_names E l names)
  /\ (forall n, n ∈ names -> n ∈ add_names E l names)
  /\ (forall e, e ∈ l -> Name e ∈ add_names E l names).
Proof.
  intros Hsound Hfinds. revert names.
  induction l as [|e l IH]; intros names Hne Hnd; simpl.
  - split; [exact Hnd|]. split; [auto|]. intros e He. by apply elem_of_nil in He.
  - assert (Name e ≠ "") as Hn by (apply Hne; left).
    destruct (AddToSilencedBy_once E (Name e) names Hsound Hfinds Hn)
      as (Hcases & Hin & Hnd' & _).
    destruct (IH (AddToSilencedBy E (Name e) names)
                (fun e' He' => Hne e' (list_elem_of_further _ _ _ He')) (Hnd' Hnd))
      as (IHnd & IHacc & IHl).
    split; [exact IHnd|]. split.
    + intros n Hin'. apply IHacc.
      destruct Hcases as [-> | ->]; [exact Hin'|]. apply elem_of_app. by left.
    + intros e' He'. apply elem_of_cons in He' as [-> | He'].
      * by apply IHacc.
      * by apply IHl.
Qed.

(** X25. With an [InArray] that is sound and finds non-empty items, and
    entries with non-empty names, [SilencedBy] returns the names of the
    entries that silence the event, each name once: an ID is in the result
    exactly when it is the name of an entry that [Event.SilencedBy] returned. *)
Theorem SilencedBy_names_once
  (E : Externals) (event : corev2_Event) (silencedEntries : list corev2_Silenced) :
  InArray_sound E -> InArray_finds_names E ->
  (forall e, e ∈ Event_SilencedBy E event silencedEntries -> Name e ≠ "") ->
  NoDup (SilencedBy E event silencedEntries)
  /\ forall n,
       n ∈ SilencedBy E event silencedEntries
       <-> exists e, e ∈ Event_SilencedBy E event silencedEntries /\ Name e = n.
Proof.
  intros Hsound Hfinds Hne. unfold SilencedBy.
  destruct (add_names_complete E (Event_SilencedBy E event silencedEntries) []
              Hsound Hfinds Hne NoDup_nil_2) as (Hnd & _ & Hall).
  split; [exact Hnd|]. intros n. split.
  - intros H. apply add_names_elem_of in H as [H | H]; [|exact H].
    by apply elem_of_nil in H.
  - intros (e & He & <-). by apply Hall.
Qed.

Lemma SilencedBy_names_once_witness :
  NoDup (SilencedBy DemoSilenced.externals DemoSilenced.event1
           (DemoSilenced.cache "default"))
  /\ "linux:*" ∈ SilencedBy DemoSilenced.externals DemoSilenced.event1
                   (DemoSilenced.cache "default").
Proof.
  assert (InArray_sound DemoSilenced.externals) as Hs.
  { intros item array H. by apply bool_decide_eq_true in H. }
  assert (InArray_finds_names DemoSilenced.externals) as Hf.
  { intros item array _ H. by apply bool_decide_eq_true. }
  destruct (SilencedBy_names_once DemoSilenced.externals DemoSilenced.event1
              (DemoSilenced.cache "default") Hs Hf) as [Hnd Hiff].
  - intros e He. vm_compute in He. apply list_elem_of_In in He.
    repeat (destruct He as [<- | He]; [discriminate|]). destruct He.
  - split; [exact Hnd|]. apply Hiff.
    exists (DemoSilenced.entry "linux:*" (-1) "*"). split; [|reflexivity].
    vm_compute. left.
Defined.

Lemma live_entries_sublist (E : Externals) (es : list corev2_Silenced) :
  forall k, live_entries E k es `sublist_of` es.
Proof.
  induction es as [|e es IH]; intros k; simpl; [constructor|].
  destruct (0 <? ExpireAt e)%Z; [destruct (Unix_Before _ _)|];
    try (apply sublist_skip; apply IH). apply sublist_cons. apply IH.
Qed.

Lemma live_entries_elem_of (E : Externals) (es : list corev2_Silenced)
  (e : corev2_Silenced) :
  forall k, e ∈ live_entries E k es ->
    e ∈ es
    /\ ((ExpireAt e <= 0)%Z
        \/ exists j, (k <= j)%nat /\ Unix_Before (ExpireAt e) (Now E j) = false).
Proof.
  induction es as [|e0 es IH]; intros k H; simpl in H.
  - by apply elem_of_nil in H.
  - destruct (Z.ltb_spec 0 (ExpireAt e0)) as [Hpos|Hnonpos].
    + destruct (Unix_Before (ExpireAt e0) (Now E k)) eqn:Hb.
      * apply IH in H as [Hin [Hz | (j & Hj & Hjb)]].
        -- split; [by right|by left].
        -- split; [by right|]. right. exists j. split; [lia|exact Hjb].
      * apply elem_of_cons in H as [-> | H].
        -- split; [left|]. right. exists k. split; [lia|exact Hb].
        -- apply IH in H as [Hin [Hz | (j & Hj & Hjb)]].
           ++ split; [by right|by left].
           ++ split; [by right|]. right. exists j. split; [lia|exact Hjb].
    + apply elem_of_cons in H as [-> | H].
      * split; [left|by left].
      * apply IH in H as [Hin Hor]. split; [by right|exact Hor].
Qed.

(** X26. The entries that [GetSilenced] keeps from the cache are the cache
    entries in their order with some left out; an entry whose [ExpireAt] is
    zero or negative is always kept; an entry that is kept either has such an
    [ExpireAt] or did not lie before one of the clock readings; and an entry
    with a positive [ExpireAt] that lies before every clock reading is left
    out.  The comparison is the one of [time.Unix] and [Time.Before], in
    which an [ExpireAt] close to the largest [int64] wraps around to a time
    long past. *)
Theorem live_entries_drops_only_expired
  (E : Externals) (k : nat) (cacheEntries : list corev2_Silenced) :
  live_entries E k cacheEntries `sublist_of` cacheEntries
  /\ (forall e, e ∈ cacheEntries -> (ExpireAt e <= 0)%Z ->
        e ∈ live_entries E k cacheEntries)
  /\ (forall e, e ∈ live_entries E k cacheEntries ->
        (ExpireAt e <= 0)%Z
        \/ exists j, (k <= j)%nat /\ Unix_Before (ExpireAt e) (Now E j) = false)
  /\ (forall e, (0 < ExpireAt e)%Z ->
        (forall j, Unix_Before (ExpireAt e) (Now E j) = true) ->
        e ∉ live_entries E k cacheEntries).
Proof.
  split; [apply live_entries_sublist|]. split; [|split].
  3:{ intros e Hpos Hall He.
      apply (live_entries_elem_of E cacheEntries e k) in He as [_ [Hz | (j & _ & Hj)]];
        [lia|]. rewrite Hall in Hj. discriminate. }
  - revert k. induction cacheEntries as [|e0 es IH]; intros k e He Hz.
    + by apply elem_of_nil in He.
    + simpl. apply elem_of_cons in He as [-> | He].
      * destruct (Z.ltb_spec 0 (ExpireAt e0)); [lia|]. left.
      * destruct (0 <? ExpireAt e0)%Z; [destruct (Unix_Before _ _)|];
          try (right; by apply IH). by apply IH.
  - intros e He. by apply (live_entries_elem_of E cacheEntries e k).
Qed.

(** [time.Unix] of the largest [int64] lies in the year -292277022657. *)
Lemma wrap_int64_largest :
  wrap_int64 (9223372036854775807 + unixToInternal) = (-9223371974719179009)%Z.
Proof. vm_compute. reflexivity. Qed.

Lemma live_entries_drops_only_expired_witness :
  DemoSilenced.entry "linux:*" (-1) "*"
    ∈ live_entries DemoSilenced.externals 0 (DemoSilenced.cache "default")
  /\ live_entries DemoSilenced.externals 0 (DemoSilenced.cache "default")
     `sublist_of` DemoSilenced.cache "default"
  /\ DemoSilenced.entry "far:*" 9223372036854775807 "*"
       ∉ live_entries DemoSilenced.externals 0 (DemoSilenced.cache "default").
Proof.
  destruct (live_entries_drops_only_expired DemoSilenced.externals 0
              (DemoSilenced.cache "default")) as (Hsub & Hkeep & _ & Hdrop).
  split; [|split; [exact Hsub|]].
  - apply Hkeep; [left|]. simpl. lia.
  - apply Hdrop; [simpl; lia|]. intros j. unfold Unix_Before.
    change (ExpireAt (DemoSilenced.entry "far:*" 9223372036854775807 "*"))
      with 9223372036854775807%Z.
    rewrite wrap_int64_largest.
    change (Now DemoSilenced.externals j).1
      with (1700000000 + unixToInternal + Z.of_nat j)%Z.
    apply orb_true_iff. left. apply Z.ltb_lt. unfold unixToInternal. lia.
Defined.

(** X27. [GetSilenced] leaves an event without a check as it is.  For an
    event with a check it replaces the list of silenced IDs and nothing else;
    and when [Event.SilencedBy] returns entries it was given, every ID of the
    new list is the name of an entry that the cache holds for the namespace
    of the check and that never expires or did not lie before one of the
    clock readings. *)
Theorem GetSilenced_sets_only_live_names
  (E : Externals) (event : corev2_Event) (cache : SilencesCache) :
  SilencedBy_selects E ->
  (Check event = None -> GetSilenced E event cache = event)
  /\ (forall check, Check event = Some check ->
        exists ids,
          GetSilenced E event cache
          = {| Check := Some {| Namespace := Namespace check; Silenced := ids;
                                CheckRest := CheckRest check |};
               EventRest := EventRest event |}
          /\ forall id, id ∈ ids ->
               exists e, e ∈ cache (Namespace check) /\ Name e = id
                 /\ ((ExpireAt e <= 0)%Z
                     \/ exists j, Unix_Before (ExpireAt e) (Now E j) = false)).
Proof.
  intros Hsel. unfold GetSilenced, HasCheck, set_Silenced. split.
  - intros ->. reflexivity.
  - intros check Hc. rewrite Hc. simpl. eexists. split; [reflexivity|].
    intros id Hid. unfold SilencedBy in Hid.
    apply add_names_elem_of in Hid as [Hid | (e & He & Hn)].
    + by apply elem_of_nil in Hid.
    + apply Hsel in He.
      apply live_entries_elem_of in He as [Hin Hlive].
      exists e. split; [exact Hin|]. split; [exact Hn|].
      destruct Hlive as [Hz | (j & _ & Hj)]; [by left|right; eauto].
Qed.

Lemma GetSilenced_sets_only_live_names_witness :
  GetSilenced DemoSilenced.externals
    {| Check := None; EventRest := "entity1" |} DemoSilenced.cache
  = {| Check := None; EventRest := "entity1" |}
  /\ exists ids,
       GetSilenced DemoSilenced.externals DemoSilenced.event1 DemoSilenced.cache
       = {| Check := Some {| Namespace := "default"; Silenced := ids;
                             CheckRest := "check1" |};
            EventRest := "entity1" |}
       /\ ("old:*" ∉ ids) /\ ("far:*" ∉ ids).
Proof.
  assert (SilencedBy_selects DemoSilenced.externals) as Hsel.
  { intros event entries entry H. simpl in H.
    apply list_elem_of_In, filter_In in H as [H _]. by apply list_elem_of_In. }
  split.
  - apply (proj1 (GetSilenced_sets_only_live_names DemoSilenced.externals
                    {| Check := None; EventRest := "entity1" |} DemoSilenced.cache Hsel)).
    reflexivity.
  - destruct (proj2 (GetSilenced_sets_only_live_names DemoSilenced.externals
                       DemoSilenced.event1 DemoSilenced.cache Hsel)
                {| Namespace := "default"; Silenced := ["stale"]; CheckRest := "check1" |}
                eq_refl) as (ids & Hrun & Hids).
    exists ids. split; [exact Hrun|].
    vm_compute in Hrun. injection Hrun as <-.
    split; intros Hold; apply list_elem_of_In in Hold;
      destruct Hold as [Hold | [Hold | []]]; discriminate Hold.
Defined.

End SilencedProperties.
